(** * useEthers: the connection facade of useDApp

    A shallow embedding of the hook [useEthers] (packages/core, hooks) and of
    the [switchNetwork] action it hands to the UI, with the JavaScript
    primitives the hook relies on: truthiness, strict equality,
    [Array.prototype.indexOf], [parseInt(_, 10)], [Number.prototype.toString]
    and array indexing.

    Conventions of the embedding.
    - [undefined] in an optional position is [None].
    - A JavaScript [number] in a chain-id position is an integer ([Int z]) or
      [NaN]; the rounding of doubles beyond 2^53 is not represented.
    - A promise is its outcome: [Ok v] when it resolves, [Throw e] when it
      rejects; a synchronous [throw] inside an [async] function is a
      rejection.
    - The JSON-RPC traffic is a log of the calls handed to [provider.send],
      threaded through [switchNetwork] as state.
    - The hook keeps one piece of React state, [error]. A render is a
      function of the values its hooks and contexts return ([Env]) and of
      that state; the effect computes the value it passes to [setError],
      which is the state of the render that follows it. *)

From Stdlib Require Import ZArith String Ascii List HexString.
From Stdlib Require QArith_base.
From stdpp Require Import base option list strings gmap pretty.

Local Open Scope Z_scope.

(** * Part I: the program *)

(** ** JavaScript values *)

Inductive number :=
  | Int (z : Z)
  | NaN.

Global Instance number_eq_dec : EqDecision number.
Proof. solve_decision. Defined.

(** The values an untyped caller can hand to [switchNetwork]. A number with
    a fractional part (4.5 is [Qmake 9 2]) is kept apart from [number]: it
    never is a chain id. *)
Inductive jsvalue :=
  | JUndefined
  | JNull
  | JBoolean (b : bool)
  | JString (s : string)
  | JNumber (n : number)
  | JFractional (q : QArith_base.Q).

(** [typeof v] *)
Definition typeof (v : jsvalue) : string :=
  match v with
  | JUndefined => "undefined"
  | JNull => "object"
  | JBoolean _ => "boolean"
  | JString _ => "string"
  | JNumber _ | JFractional _ => "number"
  end.

(** ToBoolean on numbers: [0] and [NaN] are falsy. *)
Definition number_truthy (n : number) : bool :=
  match n with
  | Int z => negb (z =? 0)
  | NaN => false
  end.

(** ToBoolean on strings: only the empty string is falsy. *)
Definition string_truthy (s : string) : bool :=
  match s with
  | EmptyString => false
  | String _ _ => true
  end.

(** ToBoolean on [T | undefined]: [undefined] is falsy. *)
Definition truthy {A} (inner : A → bool) (v : option A) : bool :=
  match v with
  | Some a => inner a
  | None => false
  end.

(** ToBoolean on an object or array reference: always true. *)
Definition object_truthy {A} (_ : A) : bool := true.

(** [a === b] on numbers: [NaN] equals nothing, itself included. *)
Definition number_strict_eq (a b : number) : bool :=
  match a, b with
  | Int x, Int y => x =? y
  | _, _ => false
  end.

(** [v === n] between a value of any type and a number. *)
Definition strict_eq_number (v : jsvalue) (n : number) : bool :=
  match v with
  | JNumber m => number_strict_eq m n
  | _ => false
  end.

(** [String(n)], as a template literal interpolates a number. *)
Definition number_toString (n : number) : string :=
  match n with
  | Int z => pretty z
  | NaN => "NaN"
  end.

(** [z.toString(16)] on an integer: lower-case digits, a leading minus sign
    for a negative value, no prefix. *)
Definition toString16 (z : Z) : string :=
  match z with
  | Z0 => "0"
  | Zpos p => HexString.Raw.of_pos p ""
  | Zneg p => "-" +:+ HexString.Raw.of_pos p ""
  end.

(** [n.toString(16)] on a number. *)
Definition number_toString16 (n : number) : string :=
  match n with
  | Int z => toString16 z
  | NaN => "NaN"
  end.

(** *** Arrays *)

(** [arr[i]]: [undefined] outside [0 .. length-1], negative indices
    included. *)
Definition array_get {A} (arr : list A) (i : Z) : option A :=
  if i <? 0 then None else arr !! Z.to_nat i.

(** [arr.indexOf(x)]: the index of the first element strictly equal to [x],
    or [-1]. *)
Fixpoint indexOf_from (arr : list number) (x : number) (i : Z) : Z :=
  match arr with
  | [] => -1
  | y :: rest => if number_strict_eq y x then i else indexOf_from rest x (i + 1)
  end.

Definition indexOf (arr : list number) (x : number) : Z := indexOf_from arr x 0.

(** *** parseInt(s, 10) *)

(** White space that [parseInt] skips (the ASCII part of StrWhiteSpaceChar:
    TAB, LF, VT, FF, CR, SP). *)
Definition is_whitespace (c : ascii) : bool :=
  let n := nat_of_ascii c in
  ((9 <=? n)%nat && (n <=? 13)%nat) || (n =? 32)%nat.

Fixpoint skip_whitespace (s : string) : string :=
  match s with
  | String c rest => if is_whitespace c then skip_whitespace rest else s
  | EmptyString => s
  end.

Definition decimal_digit (c : ascii) : option Z :=
  let n := nat_of_ascii c in
  if ((48 <=? n)%nat && (n <=? 57)%nat) then Some (Z.of_nat n - 48) else None.

(** The value of the longest prefix of decimal digits of [s], continuing
    from [acc]; [seen] records whether a digit was read. *)
Fixpoint parse_digits (s : string) (seen : bool) (acc : Z) : option Z :=
  match s with
  | String c rest =>
      match decimal_digit c with
      | Some d => parse_digits rest true (10 * acc + d)
      | None => if seen then Some acc else None
      end
  | EmptyString => if seen then Some acc else None
  end.

(** Leading white space, an optional sign, then the longest run of decimal
    digits; [NaN] when there is no digit. With radix 10 a "0x" prefix is
    not stripped. *)
Definition parseInt10 (s : string) : number :=
  let s := skip_whitespace s in
  let '(sign, s) :=
    match s with
    | String "-"%char rest => (-1, rest)
    | String "+"%char rest => (1, rest)
    | _ => (1, s)
    end in
  match parse_digits s false 0 with
  | Some v => Int (sign * v)
  | None => NaN
  end.

(** [Object.keys(o)] of an object used as a map. The order of the keys is
    not observable through the membership tests made on them. *)
Definition Object_keys {V} (o : gmap string V) : list string :=
  (map_to_list o).*1.

(** ** Errors and outcomes *)

(** An [Error] object: [name], [message], and the [code] property wallet
    providers attach to the errors they reject with ([undefined] on a plain
    [Error]). *)
Module Error.
Record t := { name : string; message : string; code : jsvalue }.
End Error.

(** [new Error(message)] *)
Definition new_Error (message : string) : Error.t :=
  {| Error.name := "Error"; Error.message := message; Error.code := JUndefined |}.

(** What a call can throw (or a promise reject with). *)
Inductive exn :=
  | ArgumentValidationError (argument : string) (value : jsvalue)
  | Thrown (e : Error.t).

Inductive result (A : Type) :=
  | Ok (a : A)
  | Throw (e : exn).
Arguments Ok {A} a.
Arguments Throw {A} e.

(** ** Configuration: the supported networks *)

Module NativeCurrency.
Record t := { name : string; symbol : string; decimals : Z }.
End NativeCurrency.

(** A configured network. The hook reads [chainId] and [rpcUrl]; the other
    fields are the ones the add-chain parameters are sourced from. *)
Module Chain.
Record t := {
  chainId : number;
  chainName : string;
  rpcUrl : option string;
  blockExplorerUrl : option string;
  nativeCurrency : option NativeCurrency.t;
}.
End Chain.

Module AddNetworkParams.
Record t := {
  chainId : string;
  chainName : string;
  rpcUrls : list (option string);
  blockExplorerUrls : option (list string);
  nativeCurrency : option NativeCurrency.t;
}.
End AddNetworkParams.

(** Modelled from the spec: helpers/getAddNetworkParams is imported by the
    hook but is not among the sources. The spec describes its result as a
    single network-parameters object (chain id hex, name, native currency,
    RPC URLs, block explorer URLs) sourced from the configured network. *)
Definition getAddNetworkParams (chain : Chain.t) : AddNetworkParams.t :=
  {| AddNetworkParams.chainId := "0x" +:+ number_toString16 (Chain.chainId chain);
     AddNetworkParams.chainName := Chain.chainName chain;
     AddNetworkParams.rpcUrls := [Chain.rpcUrl chain];
     AddNetworkParams.blockExplorerUrls :=
       match Chain.blockExplorerUrl chain with
       | Some url => if string_truthy url then Some [url] else None
       | None => None
       end;
     AddNetworkParams.nativeCurrency := Chain.nativeCurrency chain |}.

(** ** JSON-RPC through a provider *)

(** One element of the [params] array of a request. *)
Inductive rpc_param :=
  | ChainIdParam (chainId : string)
  | NetworkParam (p : AddNetworkParams.t).

Record rpc_call := { method : string; params : list rpc_param }.

(** A provider. [send] is absent on a provider without the raw RPC
    capability (['send' in provider] is false). When present, it answers a
    call in view of the calls made before it: [None] when the request
    resolves (the resolved value is ignored by the hook), [Some e] when it
    rejects with the error object [e]. *)
Record Provider := {
  send : option (list rpc_call → rpc_call → option Error.t);
}.

(** Computations that issue RPC calls and may throw: the log of the calls
    made so far is the state. *)
Definition M (A : Type) : Type := list rpc_call → result A * list rpc_call.

Definition ret {A} (a : A) : M A := λ log, (Ok a, log).

Definition throw {A} (e : exn) : M A := λ log, (Throw e, log).

Definition bind {A B} (m : M A) (k : A → M B) : M B :=
  λ log,
    match m log with
    | (Ok a, log') => k a log'
    | (Throw e, log') => (Throw e, log')
    end.

(** [try { body } catch (error) { handler }] *)
Definition try_catch {A} (body : M A) (handler : exn → M A) : M A :=
  λ log,
    match body log with
    | (Ok a, log') => (Ok a, log')
    | (Throw e, log') => handler e log'
    end.

(** Lifting a synchronous call that may throw. *)
Definition lift {A} (r : result A) : M A := λ log, (r, log).

Notation "x <- m ;; k" := (bind m (λ x, k))
  (at level 100, m at next level, right associativity) : stdpp_scope.

(** [await provider.send(method, params)] *)
Definition await_send (respond : list rpc_call → rpc_call → option Error.t)
    (method : string) (params : list rpc_param) : M unit :=
  λ log,
    let call := {| method := method; params := params |} in
    (match respond log call with
     | None => Ok ()
     | Some e => Throw (Thrown e)
     end, log ++ [call]).

(** [error.code] of a caught value. *)
Definition exn_code (e : exn) : jsvalue :=
  match e with
  | Thrown e => Error.code e
  | ArgumentValidationError _ _ => JUndefined
  end.

(** ** switchNetwork *)

(** Modelled from the spec: helpers/validateArgument is imported by the
    hook but is not among the sources. The spec has the chain id validated
    to be a number, [switchNetwork(4.5)] (non-integer) being invalid, and an
    invalid input fail with an argument-validation error. An accepted
    value is handed on as the chain id it is. *)
Definition validateArguments (chainId : jsvalue) : result number :=
  match chainId with
  | JNumber (Int c) => Ok (Int c)
  | _ => Throw (ArgumentValidationError "chainId" chainId)
  end.

(** Metamask error code *)
Definition errChainNotAddedYet : number := Int 4902.

(** [provider] is the provider the render resolved, and [networks] the
    configured networks: the closure captures both. *)
Definition switchNetwork (provider : option Provider)
    (networks : option (list Chain.t)) (chainId : jsvalue) : M unit :=
  chainId <- lift (validateArguments chainId);;
  match provider with
  | None => throw (Thrown (new_Error "Provider not connected."))
  | Some provider =>
      match send provider with
      | None => throw (Thrown (new_Error "Provider not connected."))
      | Some provider_send =>
          try_catch
            (await_send provider_send "wallet_switchEthereumChain"
               [ChainIdParam ("0x" +:+ number_toString16 chainId)])
            (λ error,
               if strict_eq_number (exn_code error) errChainNotAddedYet then
                 let chain :=
                   networks ≫=
                     find (λ chain, number_strict_eq (Chain.chainId chain) chainId) in
                 match chain with
                 | Some chain =>
                     if truthy string_truthy (Chain.rpcUrl chain) then
                       await_send provider_send "wallet_addEthereumChain"
                         [NetworkParam (getAddNetworkParams chain)]
                     else ret ()
                 | None => ret ()
                 end
               else ret ())
      end
  end.

(** ** The inputs of a render *)

(** The active connector as the hook reads it: its chain id, its accounts,
    and the provider [getProvider()] yields. *)
Module ConnectorController.
Record t := {
  chainId : option number;
  accounts : list string;
  getProvider : option Provider;
}.
End ConnectorController.

Module ReadonlyNetwork.
Record t := {
  provider : option Provider;
  chainId : option number;
}.
End ReadonlyNetwork.

(** What the hooks and contexts [useEthers] calls return at a render:
    [useNetwork()] gives [errors] and [isLoading], the connector context
    gives [activeConnector], [useConfig()] gives [networks] and
    [readOnlyUrls], and [useReadonlyNetwork()] gives [readonlyNetwork]. *)
Record Env := {
  errors : list Error.t;
  isLoading : bool;
  activeConnector : option ConnectorController.t;
  networks : option (list Chain.t);
  readOnlyUrls : option (gmap string string);
  readonlyNetwork : option ReadonlyNetwork.t;
}.

(** The object a render returns. [activate], [deactivate] and
    [activateBrowserWallet] are handed through from [useNetwork()] and are
    left out; calling [setError] always throws. *)
Module Web3Ethers.
Record t := {
  connector : option ConnectorController.t;
  library : option Provider;
  chainId : option number;
  account : option string;
  active : bool;
  error : option Error.t;
  isLoading : bool;
  switchNetwork : jsvalue → M unit;
  setError : result unit;
}.
End Web3Ethers.

(** ** The chain-validity effect *)

Definition configuredChainIds (env : Env) : list number :=
  parseInt10 <$> Object_keys (default ∅ (readOnlyUrls env)).

Definition supportedChainIds (env : Env) : option (list number) :=
  (λ networks : list Chain.t, Chain.chainId <$> networks) <$> networks env.

(** [chainId && ids && ids.indexOf(chainId) < 0], observed through its
    truthiness only; the operands to the right of a falsy one are not
    evaluated. *)
Definition missing_from (ids : option (list number)) (chainId : option number) : bool :=
  match chainId with
  | Some c =>
      number_truthy c &&
      match ids with
      | Some ids => object_truthy ids && (indexOf ids c <? 0)
      | None => false
      end
  | None => false
  end.

Definition isNotConfiguredChainId (env : Env) : bool :=
  missing_from (Some (configuredChainIds env))
    (activeConnector env ≫= ConnectorController.chainId).

Definition isUnsupportedChainId (env : Env) : bool :=
  missing_from (supportedChainIds env)
    (activeConnector env ≫= ConnectorController.chainId).

(** The interpolation of [chainId] in the message. *)
Definition chainId_toString (chainId : option number) : string :=
  match chainId with
  | Some c => number_toString c
  | None => "undefined"
  end.

Definition chainIdError (env : Env) : Error.t :=
  {| Error.name := "ChainIdError";
     Error.message :=
       (if isUnsupportedChainId env then "Unsupported" else "Not configured")
       +:+ " chain id: "
       +:+ chainId_toString (activeConnector env ≫= ConnectorController.chainId)
       +:+ ".";
     Error.code := JUndefined |}.

(** The body of the effect: the value it passes to [setError]. *)
Definition chainIdEffect (env : Env) : option Error.t :=
  if isUnsupportedChainId env || isNotConfiguredChainId env then
    Some (chainIdError env)
  else
    array_get (errors env) (Z.of_nat (length (errors env)) - 1).

(** ** The render *)

Section UseEthers.

(** [getAddress] of ethers: the checksummed form of an address; it throws
    on a string that is not an address. *)
Variable getAddress : string → result string.

(** The provider and chain id handed to the UI. *)
Definition resolve (env : Env) (error : option Error.t)
    : option Provider * option number :=
  if truthy object_truthy (activeConnector env ≫= ConnectorController.getProvider) then
    (activeConnector env ≫= ConnectorController.getProvider,
     if truthy object_truthy error then None
     else activeConnector env ≫= ConnectorController.chainId)
  else
    (readonlyNetwork env ≫= ReadonlyNetwork.provider,
     readonlyNetwork env ≫= ReadonlyNetwork.chainId).

(** [activeConnector?.accounts[0] ? getAddress(...) : undefined] *)
Definition resolve_account (env : Env) : result (option string) :=
  let first :=
    activeConnector env ≫= λ c, array_get (ConnectorController.accounts c) 0 in
  if truthy string_truthy first then
    match first with
    | Some a =>
        match getAddress a with
        | Ok address => Ok (Some address)
        | Throw e => Throw e
        end
    | None => Ok None
    end
  else Ok None.

(** One render of the hook, with [error] the current value of its state.
    The render throws when [getAddress] does. *)
Definition useEthers (env : Env) (error : option Error.t) : result Web3Ethers.t :=
  let '(provider, chainId) := resolve env error in
  match resolve_account env with
  | Throw e => Throw e
  | Ok account =>
      Ok {| Web3Ethers.connector := activeConnector env;
            Web3Ethers.library := provider;
            Web3Ethers.chainId := chainId;
            Web3Ethers.account := account;
            Web3Ethers.active := bool_decide (is_Some (activeConnector env));
            Web3Ethers.error := error;
            Web3Ethers.isLoading := isLoading env;
            Web3Ethers.switchNetwork := switchNetwork provider (networks env);
            Web3Ethers.setError := Throw (Thrown (new_Error "setError is deprecated")) |}
  end.

End UseEthers.

(** ** activate *)

(** The deprecated web3-react shape [{ getProvider, activate }]: what
    calling and awaiting each of its two methods gives. [getProvider] may
    yield [undefined]. *)
Module Web3ReactConnector.
Record t := {
  activate : result unit;
  getProvider : result (option Provider);
}.
End Web3ReactConnector.

(** The argument of the view's [activate]: a provider, a web3-react
    connector, or a connector tag [{ tag }]. Of the three, only the
    connector has a [getProvider] member. *)
Inductive providerOrConnector :=
  | AProvider (provider : Provider)
  | AConnector (connector : Web3ReactConnector.t)
  | ATag (tag : string).

(** What reaches the [activate] of [useNetwork()]: the argument of the
    view's [activate] as it is, or what a web3-react connector yielded. *)
Inductive activation :=
  | Forwarded (input : providerOrConnector)
  | Yielded (provider : option Provider).

(** What the view's [activate] does that can be seen from outside, in
    order. *)
Inductive event :=
  | ConsoleWarn (message : string)
  | ConsoleLog (e : exn)
  | ConnectorActivate
  | ConnectorGetProvider
  | NetworkActivate (target : activation).

Section Activate.

(** The [activate] of [useNetwork()]: whether the activation it is asked
    for resolves or rejects. *)
Variable useNetwork_activate : activation → result unit.

(** The [activate] of the view. *)
Definition activate (input : providerOrConnector)
    : list event → result unit * list event :=
  λ log,
    match input with
    | AConnector connector =>
        let log :=
          log ++ [ConsoleWarn
            "Using web3-react connectors is deprecated and may lead to unexpected behavior."] in
        let log :=
          match Web3ReactConnector.activate connector with
          | Ok _ => log ++ [ConnectorActivate]
          | Throw e => log ++ [ConnectorActivate; ConsoleLog e]
          end in
        match Web3ReactConnector.getProvider connector with
        | Ok provider =>
            (useNetwork_activate (Yielded provider),
             log ++ [ConnectorGetProvider; NetworkActivate (Yielded provider)])
        | Throw e => (Throw e, log ++ [ConnectorGetProvider])
        end
    | _ =>
        (useNetwork_activate (Forwarded input),
         log ++ [NetworkActivate (Forwarded input)])
    end.

End Activate.

(** The [NetworkActivate] events of a log. *)
Definition activations (log : list event) : list activation :=
  omap (λ ev, match ev with NetworkActivate target => Some target | _ => None end) log.

(** * Part II: the vocabulary of the properties *)

(** [c] is the chain id of a key of the read-only-URL configuration. *)
Definition configured (env : Env) (c : number) : Prop :=
  ∃ urls key, readOnlyUrls env = Some urls ∧ is_Some (urls !! key) ∧ parseInt10 key = c.

(** A supported-networks list is configured and [c] is the chain id of none
    of its entries. *)
Definition absent_from_supported (env : Env) (c : number) : Prop :=
  ∃ supported, networks env = Some supported ∧
    ∀ network, network ∈ supported → Chain.chainId network ≠ c.

(** The chain-id error the effect synthesizes, by kind. *)
Inductive ChainIdErrorKind :=
  | Unsupported
  | NotConfigured.

Definition ChainIdError (kind : ChainIdErrorKind) (c : number) : Error.t :=
  {| Error.name := "ChainIdError";
     Error.message :=
       match kind with
       | Unsupported => "Unsupported chain id: " +:+ number_toString c +:+ "."
       | NotConfigured => "Not configured chain id: " +:+ number_toString c +:+ "."
       end;
     Error.code := JUndefined |}.

(** [chain] is the entry [networks.find] yields for chain id [c]: the first
    entry of the list whose chain id is [c]. *)
Definition entry_for (supported : list Chain.t) (c : Z) (chain : Chain.t) : Prop :=
  ∃ before after,
    supported = before ++ chain :: after ∧
    Chain.chainId chain = Int c ∧
    ∀ other, other ∈ before → Chain.chainId other ≠ Int c.

Definition switch_request (c : Z) : rpc_call :=
  {| method := "wallet_switchEthereumChain";
     params := [ChainIdParam ("0x" +:+ toString16 c)] |}.

Definition add_request (chain : Chain.t) : rpc_call :=
  {| method := "wallet_addEthereumChain";
     params := [NetworkParam (getAddNetworkParams chain)] |}.

(** The wallet refused the switch with code 4902 and the configured
    networks have an entry for the chain id whose RPC URL is a non-empty
    string: the case in which [switchNetwork] goes on to add the chain. *)
Definition recoverable (provider_send : list rpc_call → rpc_call → option Error.t)
    (networks : option (list Chain.t)) (c : Z) (log : list rpc_call)
    (chain : Chain.t) : Prop :=
  ∃ e supported url,
    provider_send log (switch_request c) = Some e ∧
    Error.code e = JNumber (Int 4902) ∧
    networks = Some supported ∧
    entry_for supported c chain ∧
    Chain.rpcUrl chain = Some url ∧
    url ≠ "".

(** ** Sample configurations *)

Definition Mainnet : Chain.t :=
  {| Chain.chainId := Int 1;
     Chain.chainName := "Mainnet";
     Chain.rpcUrl := None;
     Chain.blockExplorerUrl := Some "https://etherscan.io";
     Chain.nativeCurrency := None |}.

Definition Polygon : Chain.t :=
  {| Chain.chainId := Int 137;
     Chain.chainName := "Polygon";
     Chain.rpcUrl := Some "https://polygon-rpc.com";
     Chain.blockExplorerUrl := Some "https://polygonscan.com";
     Chain.nativeCurrency :=
       Some {| NativeCurrency.name := "MATIC";
               NativeCurrency.symbol := "MATIC";
               NativeCurrency.decimals := 18 |} |}.

(** The error a wallet rejects [wallet_switchEthereumChain] with when it
    does not know the chain. *)
Definition unrecognized_chain : Error.t :=
  {| Error.name := "Error";
     Error.message := "Unrecognized chain ID";
     Error.code := JNumber (Int 4902) |}.

Definition user_rejected : Error.t :=
  {| Error.name := "Error";
     Error.message := "User rejected the request.";
     Error.code := JNumber (Int 4001) |}.

Definition method_not_found : Error.t :=
  {| Error.name := "Error";
     Error.message := "the method does not exist";
     Error.code := JNumber (Int (-32601)) |}.

Definition network_down : Error.t := new_Error "could not detect network".

(** A wallet that knows no chain; it takes or refuses the chains it is
    asked to add. *)
Definition wallet (accepts_add : bool) : Provider :=
  {| send := Some (λ _ call,
       if bool_decide (method call = "wallet_switchEthereumChain") then
         Some unrecognized_chain
       else if accepts_add then None else Some user_rejected) |}.

(** A provider without the raw RPC capability. *)
Definition sendless : Provider := {| send := None |}.

(** A read-only JSON-RPC node: it has [send], and knows no wallet method. *)
Definition readonly_node : Provider :=
  {| send := Some (λ _ _, Some method_not_found) |}.

(** A stand-in for the [getAddress] of ethers on the examples: it takes
    "0x" followed by forty characters, hands it back as it is, and throws
    on anything else. *)
Definition sample_getAddress (address : string) : result string :=
  if bool_decide (String.length address = 42%nat) then Ok address
  else Throw (Thrown (new_Error "invalid address")).

Definition sample_account : string := "0x52908400098527886E0F7030069857D2E4169EE7".

Definition connected (chainId : number) (provider : option Provider)
    : ConnectorController.t :=
  {| ConnectorController.chainId := Some chainId;
     ConnectorController.accounts := [sample_account];
     ConnectorController.getProvider := provider |}.

(** A wallet on [chainId], Mainnet and Polygon supported, a read-only URL
    for Mainnet only. *)
Definition env_wallet_on (chainId : number) : Env :=
  {| errors := [network_down];
     isLoading := false;
     activeConnector := Some (connected chainId (Some (wallet true)));
     networks := Some [Mainnet; Polygon];
     readOnlyUrls := Some {[ "1" := "https://mainnet.example" ]};
     readonlyNetwork := None |}.

(** A wallet on Mainnet and a configuration that names no networks and no
    read-only URLs. *)
Definition env_unconfigured : Env :=
  {| errors := [];
     isLoading := false;
     activeConnector := Some (connected (Int 1) (Some (wallet true)));
     networks := None;
     readOnlyUrls := None;
     readonlyNetwork := None |}.

Definition readonly_mainnet : ReadonlyNetwork.t :=
  {| ReadonlyNetwork.provider := Some readonly_node;
     ReadonlyNetwork.chainId := Some (Int 1) |}.

(** No wallet connected; [readonly] is the read-only network, if any. *)
Definition env_disconnected (readonly : option ReadonlyNetwork.t) : Env :=
  {| errors := [];
     isLoading := false;
     activeConnector := None;
     networks := Some [Mainnet; Polygon];
     readOnlyUrls := Some {[ "1" := "https://mainnet.example" ]};
     readonlyNetwork := readonly |}.

(** A wallet that knows every chain and switches to it. *)
Definition obliging_wallet : Provider := {| send := Some (λ _ _, None) |}.

(** Mainnet and Polygon, with Polygon given no RPC URL. *)
Definition Polygon_without_rpcUrl : Chain.t :=
  {| Chain.chainId := Int 137;
     Chain.chainName := "Polygon";
     Chain.rpcUrl := None;
     Chain.blockExplorerUrl := None;
     Chain.nativeCurrency := None |}.

(** A wallet on [chainId] with [reported] the errors of the network
    state; Mainnet and Polygon are supported and both have a read-only
    URL, registered under the chain id as a property name. *)
Definition env_configured (chainId : number) (reported : list Error.t) : Env :=
  {| errors := reported;
     isLoading := false;
     activeConnector := Some (connected chainId (Some (wallet true)));
     networks := Some [Mainnet; Polygon];
     readOnlyUrls :=
       Some (<[ number_toString (Int 1) := "https://mainnet.example" ]>
               {[ number_toString (Int 137) := "https://polygon.example" ]});
     readonlyNetwork := None |}.

(** A connector whose first account is no address. *)
Definition env_bad_account : Env :=
  {| errors := [];
     isLoading := false;
     activeConnector :=
       Some {| ConnectorController.chainId := Some (Int 1);
               ConnectorController.accounts := ["not an address"];
               ConnectorController.getProvider := Some (wallet true) |};
     networks := None;
     readOnlyUrls := None;
     readonlyNetwork := None |}.

(** A network state that activates anything but [undefined]. *)
Definition sample_activate (target : activation) : result unit :=
  match target with
  | Yielded None => Throw (Thrown (new_Error "no provider"))
  | _ => Ok ()
  end.

(** A web3-react connector whose own [activate] fails and whose
    [getProvider] yields a wallet. *)
Definition failing_connector : Web3ReactConnector.t :=
  {| Web3ReactConnector.activate := Throw (Thrown user_rejected);
     Web3ReactConnector.getProvider := Ok (Some (wallet true)) |}.

(** A web3-react connector whose [getProvider] throws. *)
Definition broken_connector : Web3ReactConnector.t :=
  {| Web3ReactConnector.activate := Ok ();
     Web3ReactConnector.getProvider := Throw (Thrown network_down) |}.

(** * Part III: properties *)

(** ** The JavaScript primitives *)

Example toString16_examples :
  toString16 137 = "89" ∧ toString16 0 = "0" ∧ toString16 (-255) = "-ff".
Proof. repeat split; reflexivity. Qed.

Example parseInt10_examples :
  parseInt10 "137" = Int 137 ∧ parseInt10 " 42abc" = Int 42 ∧
  parseInt10 "-5" = Int (-5) ∧ parseInt10 "0x10" = Int 0 ∧
  parseInt10 "mainnet" = NaN ∧ parseInt10 "" = NaN.
Proof. repeat split; reflexivity. Qed.

Example number_toString_137 : number_toString (Int 137) = "137".
Proof. by vm_compute. Qed.

(** The digits [toString16] writes read back, in base 16, as the number. *)
Lemma toString16_reads_back (p : positive) :
  HexString.Raw.to_N (toString16 (Zpos p)) 0%N = Npos p.
Proof. simpl. by rewrite HexString.Raw.to_N_of_pos. Qed.

Lemma number_strict_eq_true a b :
  number_strict_eq a b = true ↔ ∃ z, a = Int z ∧ b = Int z.
Proof.
  destruct a as [x|], b as [y|]; simpl; split.
  - intros ->%Z.eqb_eq. eauto.
  - intros (z & [= ->] & [= ->]). apply Z.eqb_refl.
  - discriminate.
  - intros (z & _ & [=]).
  - discriminate.
  - intros (z & [=] & _).
  - discriminate.
  - intros (z & [=] & _).
Qed.

Lemma number_truthy_Int c :
  number_truthy c = true ↔ ∃ z, c = Int z ∧ z ≠ 0.
Proof.
  destruct c as [z|]; simpl.
  - rewrite negb_true_iff, Z.eqb_neq. split; [eauto|]. by intros (? & [= <-] & ?).
  - split; [discriminate|]. by intros (? & [=] & _).
Qed.

(** A truthy number is strictly equal to exactly itself. *)
Lemma number_strict_eq_truthy y c :
  number_truthy c = true → number_strict_eq y c = true ↔ y = c.
Proof.
  intros (z & -> & _)%number_truthy_Int. rewrite number_strict_eq_true. split.
  - by intros (? & -> & [= <-]).
  - intros ->. eauto.
Qed.

Lemma indexOf_from_lower arr x i :
  indexOf_from arr x i = -1 ∨ i ≤ indexOf_from arr x i.
Proof.
  revert i. induction arr as [|y rest IH]; intros i; simpl; [by left|].
  destruct (number_strict_eq y x); [right; lia|].
  destruct (IH (i + 1)) as [->|?]; [by left|right; lia].
Qed.

Lemma indexOf_from_negative arr x i :
  0 ≤ i →
  indexOf_from arr x i < 0 ↔ ∀ y, y ∈ arr → number_strict_eq y x = false.
Proof.
  revert i. induction arr as [|y rest IH]; intros i Hi; simpl.
  - split; [|lia]. intros _ y Hy. by apply elem_of_nil in Hy.
  - destruct (number_strict_eq y x) eqn:Heq.
    + split; [lia|]. intros Hall. rewrite Hall in Heq; [done|]. by left.
    + rewrite (IH (i + 1)) by lia. split.
      * intros Hall z [->|Hz]%elem_of_cons; auto.
      * intros Hall z Hz. apply Hall. by right.
Qed.

(** [ids.indexOf(c) < 0] says that [c] is not in [ids], for a truthy [c]. *)
Lemma indexOf_negative_truthy ids c :
  number_truthy c = true →
  (indexOf ids c <? 0) = true ↔ c ∉ ids.
Proof.
  intros Hc. unfold indexOf. rewrite Z.ltb_lt, indexOf_from_negative by lia.
  split.
  - intros Hall Hin. specialize (Hall c Hin).
    by rewrite (proj2 (number_strict_eq_truthy c c Hc)) in Hall.
  - intros Hnin y Hy. destruct (number_strict_eq y c) eqn:Heq; [|done].
    apply number_strict_eq_truthy in Heq as ->; done.
Qed.

(** A hit of [indexOf] is the position of an element strictly equal to the
    one looked for. *)
Lemma indexOf_from_hit arr x i :
  0 ≤ i → i ≤ indexOf_from arr x i →
  ∃ y, arr !! Z.to_nat (indexOf_from arr x i - i) = Some y ∧
       number_strict_eq y x = true.
Proof.
  revert i. induction arr as [|y rest IH]; intros i Hi Hhit; simpl in *; [lia|].
  destruct (number_strict_eq y x) eqn:Heq.
  - exists y. by rewrite Z.sub_diag.
  - destruct (indexOf_from_lower rest x (i + 1)) as [Hneg|Hle]; [lia|].
    destruct (IH (i + 1)) as (z & Hz & Hzx); [lia|done|].
    exists z. split; [|done].
    replace (Z.to_nat (indexOf_from rest x (i + 1) - i))
      with (S (Z.to_nat (indexOf_from rest x (i + 1) - (i + 1)))) by lia.
    done.
Qed.

(** [arr[arr.length - 1]] is the last element, [undefined] on an empty
    array. *)
Lemma array_get_last {A} (arr : list A) :
  array_get arr (Z.of_nat (length arr) - 1) = last arr.
Proof.
  unfold array_get. rewrite last_lookup.
  destruct arr as [|a arr]; [done|].
  replace (Z.of_nat (length (a :: arr)) - 1) with (Z.of_nat (length arr))
    by (simpl; lia).
  destruct (Z.ltb_spec (Z.of_nat (length arr)) 0); [lia|].
  by rewrite Nat2Z.id.
Qed.

Lemma elem_of_Object_keys {V} (o : gmap string V) key :
  key ∈ Object_keys o ↔ is_Some (o !! key).
Proof.
  unfold Object_keys. rewrite list_elem_of_fmap. split.
  - intros ([k v] & -> & Hkv%elem_of_map_to_list). by exists v.
  - intros [v Hv]. exists (key, v). split; [done|]. by apply elem_of_map_to_list.
Qed.

(** A value whose type is not [number] is no chain id. *)
Lemma typeof_not_number v :
  typeof v ≠ "number" → ∀ z, v ≠ JNumber (Int z).
Proof. intros Htype z ->. by apply Htype. Qed.

(** ** The configured sets, read as sets *)

Lemma elem_of_configuredChainIds env c :
  c ∈ configuredChainIds env ↔ configured env c.
Proof.
  unfold configuredChainIds, configured. rewrite list_elem_of_fmap. split.
  - intros (key & -> & Hkey%elem_of_Object_keys).
    destruct (readOnlyUrls env) as [urls|]; simpl in Hkey.
    + by exists urls, key.
    + rewrite lookup_empty in Hkey. by destruct Hkey.
  - intros (urls & key & -> & Hkey & <-). exists key. split; [done|].
    by apply elem_of_Object_keys.
Qed.

Lemma configuredChainIds_undefined env :
  readOnlyUrls env = None → configuredChainIds env = [].
Proof.
  intros Hnone. unfold configuredChainIds, Object_keys. rewrite Hnone. simpl.
  by rewrite map_to_list_empty.
Qed.

Section ChainValidity.

Context (env : Env) (conn : ConnectorController.t) (c : number).
Hypothesis Hactive : activeConnector env = Some conn.
Hypothesis HchainId : ConnectorController.chainId conn = Some c.

Lemma isNotConfiguredChainId_truthy :
  number_truthy c = true →
  isNotConfiguredChainId env = true ↔ ¬ configured env c.
Proof using Hactive HchainId.
  intros Hc. unfold isNotConfiguredChainId, missing_from.
  rewrite Hactive. simpl. rewrite HchainId, Hc. simpl.
  by rewrite indexOf_negative_truthy, elem_of_configuredChainIds.
Qed.

Lemma isUnsupportedChainId_truthy :
  number_truthy c = true →
  isUnsupportedChainId env = true ↔ absent_from_supported env c.
Proof using Hactive HchainId.
  intros Hc. unfold isUnsupportedChainId, missing_from, supportedChainIds,
    absent_from_supported.
  rewrite Hactive. simpl. rewrite HchainId, Hc. simpl.
  destruct (networks env) as [supported|]; simpl.
  - rewrite indexOf_negative_truthy by done. rewrite list_elem_of_fmap. split.
    + intros Hnin. exists supported. split; [done|]. intros network Hin Heq.
      apply Hnin. by exists network.
    + intros (? & [= <-] & Hall) (network & -> & Hin). by apply (Hall network).
  - split; [done|]. by intros (? & [=] & _).
Qed.

(** A falsy chain id ([0] or [NaN]) switches both checks off. *)
Lemma chain_checks_falsy :
  number_truthy c = false →
  isNotConfiguredChainId env = false ∧ isUnsupportedChainId env = false.
Proof using Hactive HchainId.
  intros Hc. unfold isNotConfiguredChainId, isUnsupportedChainId, missing_from.
  rewrite Hactive. simpl. by rewrite HchainId, Hc.
Qed.

End ChainValidity.

Lemma chainIdError_kind env conn c :
  activeConnector env = Some conn →
  ConnectorController.chainId conn = Some c →
  chainIdError env =
    ChainIdError (if isUnsupportedChainId env then Unsupported else NotConfigured) c.
Proof.
  intros Hactive HchainId. unfold chainIdError, ChainIdError.
  rewrite Hactive. simpl. rewrite HchainId.
  by destruct (isUnsupportedChainId env).
Qed.

(** A render that returned did so with the record [useEthers] builds:
    the goal [useEthers _ env error = Ok view → _] is settled field by
    field. *)
Ltac render_returned :=
  unfold useEthers;
  match goal with
  | |- context [resolve ?env ?error] => destruct (resolve env error)
  end;
  match goal with
  | |- context [resolve_account ?g ?env] => destruct (resolve_account g env)
  end;
  by intros [= <-].

(** The state a render hands back is the value of the [error] state. *)
Lemma useEthers_error getAddress env error view :
  useEthers getAddress env error = Ok view → Web3Ethers.error view = error.
Proof. render_returned. Qed.

Lemma configured_wallet_on chainId c :
  configured (env_wallet_on chainId) c ↔ c = Int 1.
Proof.
  unfold configured. simpl. split.
  - intros (urls & key & [= <-] & [url Hkey] & <-).
    by apply lookup_singleton_Some in Hkey as [<- _].
  - intros ->. eexists _, "1". split; [done|]. split; [|done].
    rewrite lookup_singleton_eq. by eexists.
Qed.

Lemma absent_from_supported_wallet_on chainId c :
  absent_from_supported (env_wallet_on chainId) c ↔ c ≠ Int 1 ∧ c ≠ Int 137.
Proof.
  unfold absent_from_supported. simpl. split.
  - intros (supported & [= <-] & Hall). split.
    + intros ->. apply (Hall Mainnet); [set_solver|done].
    + intros ->. apply (Hall Polygon); [set_solver|done].
  - intros [H1 H137]. eexists. split; [done|].
    intros network [->|[->|[]%elem_of_nil]%elem_of_cons]%elem_of_cons; simpl; congruence.
Qed.

(** ** The chain-validity check *)

(** What the effect sets for a truthy chain id of the active connector. *)
Lemma chainIdEffect_truthy env conn c :
  activeConnector env = Some conn →
  ConnectorController.chainId conn = Some c →
  number_truthy c = true →
  (absent_from_supported env c →
     chainIdEffect env = Some (ChainIdError Unsupported c)) ∧
  (¬ absent_from_supported env c → ¬ configured env c →
     chainIdEffect env = Some (ChainIdError NotConfigured c)) ∧
  (¬ absent_from_supported env c → configured env c →
     chainIdEffect env = last (errors env)).
Proof.
  intros Hactive HchainId Hc.
  pose proof (isUnsupportedChainId_truthy env conn c Hactive HchainId Hc) as Hsup.
  pose proof (isNotConfiguredChainId_truthy env conn c Hactive HchainId Hc) as Hcfg.
  pose proof (chainIdError_kind env conn c Hactive HchainId) as Hkind.
  unfold chainIdEffect. rewrite Hkind, array_get_last.
  destruct (isUnsupportedChainId env) eqn:Hu, (isNotConfiguredChainId env) eqn:Hn;
    simpl; repeat split; intros; try done.
  all: exfalso; intuition congruence.
Qed.

(** What the effect sets for a falsy chain id of the active connector. *)
Lemma chainIdEffect_falsy env conn c :
  activeConnector env = Some conn →
  ConnectorController.chainId conn = Some c →
  number_truthy c = false →
  chainIdEffect env = last (errors env).
Proof.
  intros Hactive HchainId Hc.
  destruct (chain_checks_falsy env conn c Hactive HchainId Hc) as [Hn Hu].
  unfold chainIdEffect. by rewrite Hu, Hn, array_get_last.
Qed.

(** C1 (as amended). After the chain-validity effect has run for an active
    connector whose chain id is defined and truthy (not 0, not NaN), the
    view's error is: the Unsupported chain-id error when the chain id is
    absent from the supported networks; otherwise the NotConfigured
    chain-id error when it is absent from the configured read-only-URL
    chain ids; otherwise the last externally reported error, undefined when
    there is none. *)
Theorem useEthers_chain_validity getAddress env conn c :
  activeConnector env = Some conn →
  ConnectorController.chainId conn = Some c →
  number_truthy c = true →
  (∀ view, useEthers getAddress env (chainIdEffect env) = Ok view →
     Web3Ethers.error view = chainIdEffect env) ∧
  (absent_from_supported env c →
     chainIdEffect env = Some (ChainIdError Unsupported c)) ∧
  (¬ absent_from_supported env c → ¬ configured env c →
     chainIdEffect env = Some (ChainIdError NotConfigured c)) ∧
  (¬ absent_from_supported env c → configured env c →
     chainIdEffect env = last (errors env)).
Proof.
  intros Hactive HchainId Hc.
  split; [intros view; apply useEthers_error|].
  by apply (chainIdEffect_truthy env conn).
Qed.

(** The theorem at work: a wallet on Polygon (supported, no read-only
    URL), then on Mainnet (supported and configured), then on chain 5
    (not supported). *)
Lemma useEthers_chain_validity_witness :
  chainIdEffect (env_wallet_on (Int 137)) = Some (ChainIdError NotConfigured (Int 137)) ∧
  chainIdEffect (env_wallet_on (Int 1)) = Some network_down ∧
  chainIdEffect (env_wallet_on (Int 5)) = Some (ChainIdError Unsupported (Int 5)).
Proof.
  split; [|split].
  - apply (useEthers_chain_validity sample_getAddress (env_wallet_on (Int 137))
             (connected (Int 137) (Some (wallet true))) (Int 137)
             eq_refl eq_refl eq_refl).
    + rewrite absent_from_supported_wallet_on. by intros [_ ?].
    + by rewrite configured_wallet_on.
  - apply (useEthers_chain_validity sample_getAddress (env_wallet_on (Int 1))
             (connected (Int 1) (Some (wallet true))) (Int 1)
             eq_refl eq_refl eq_refl).
    + rewrite absent_from_supported_wallet_on. by intros [? _].
    + by rewrite configured_wallet_on.
  - apply (useEthers_chain_validity sample_getAddress (env_wallet_on (Int 5))
             (connected (Int 5) (Some (wallet true))) (Int 5)
             eq_refl eq_refl eq_refl).
    by rewrite absent_from_supported_wallet_on.
Defined.

(** C1 as stated fails on chain id 0: it is defined and in neither
    configured set, yet no chain-id error is set; the view's error is the
    last externally reported one. *)
Lemma chain_validity_skips_chain_id_zero :
  activeConnector (env_wallet_on (Int 0)) ≫= ConnectorController.chainId = Some (Int 0) ∧
  absent_from_supported (env_wallet_on (Int 0)) (Int 0) ∧
  ¬ configured (env_wallet_on (Int 0)) (Int 0) ∧
  chainIdEffect (env_wallet_on (Int 0)) = Some network_down ∧
  (∀ kind, chainIdEffect (env_wallet_on (Int 0)) ≠ Some (ChainIdError kind (Int 0))) ∧
  ∃ view,
    useEthers sample_getAddress (env_wallet_on (Int 0))
      (chainIdEffect (env_wallet_on (Int 0))) = Ok view ∧
    Web3Ethers.error view = Some network_down.
Proof.
  split; [done|]. split; [by rewrite absent_from_supported_wallet_on|].
  split; [by rewrite configured_wallet_on|].
  split; [by vm_compute|]. split.
  - intros []; by vm_compute.
  - eexists. split; [by vm_compute|]. done.
Qed.

(** C10. When the active connector's chain id is 0, neither chain check
    fires, whatever the configured sets are, and the effect sets the last
    externally reported error (undefined when there is none). *)
Theorem chain_id_zero_unchecked getAddress env conn :
  activeConnector env = Some conn →
  ConnectorController.chainId conn = Some (Int 0) →
  isUnsupportedChainId env = false ∧
  isNotConfiguredChainId env = false ∧
  chainIdEffect env = last (errors env) ∧
  ∀ view, useEthers getAddress env (chainIdEffect env) = Ok view →
    Web3Ethers.error view = last (errors env).
Proof.
  intros Hactive HchainId.
  destruct (chain_checks_falsy env conn (Int 0) Hactive HchainId eq_refl) as [Hn Hu].
  pose proof (chainIdEffect_falsy env conn (Int 0) Hactive HchainId eq_refl) as Heff.
  repeat split; try done.
  intros view ->%useEthers_error. done.
Qed.

Lemma chain_id_zero_unchecked_witness :
  isUnsupportedChainId (env_wallet_on (Int 0)) = false ∧
  isNotConfiguredChainId (env_wallet_on (Int 0)) = false ∧
  chainIdEffect (env_wallet_on (Int 0)) = Some network_down.
Proof.
  destruct (chain_id_zero_unchecked sample_getAddress (env_wallet_on (Int 0))
              (connected (Int 0) (Some (wallet true))) eq_refl eq_refl)
    as (Hu & Hn & Heff & _).
  split; [exact Hu|]. split; [exact Hn|exact Heff].
Defined.

(** C9 as stated fails: with no read-only-URL configuration the
    configured chain ids are the empty list, not an undefined one, and the
    wallet's chain id 1 is reported as not configured. *)
Lemma notConfigured_fires_without_readOnlyUrls :
  readOnlyUrls env_unconfigured = None ∧
  isNotConfiguredChainId env_unconfigured = true ∧
  chainIdEffect env_unconfigured = Some (ChainIdError NotConfigured (Int 1)).
Proof. repeat split; by vm_compute. Qed.

(** C9 (as amended). The list of configured chain ids is always defined:
    with no read-only-URL configuration it is empty, the notConfigured
    condition holds for every truthy chain id of the active connector, and
    the effect sets a chain-id error: NotConfigured, unless the chain id is
    also absent from the supported networks, which makes it Unsupported. *)
Theorem notConfigured_without_readOnlyUrls env conn c :
  activeConnector env = Some conn →
  ConnectorController.chainId conn = Some c →
  number_truthy c = true →
  readOnlyUrls env = None →
  configuredChainIds env = [] ∧
  isNotConfiguredChainId env = true ∧
  (¬ absent_from_supported env c →
     chainIdEffect env = Some (ChainIdError NotConfigured c)) ∧
  (absent_from_supported env c →
     chainIdEffect env = Some (ChainIdError Unsupported c)).
Proof.
  intros Hactive HchainId Hc Hnone.
  assert (¬ configured env c) as Hncfg.
  { intros (urls & key & Hsome & _). congruence. }
  destruct (chainIdEffect_truthy env conn c Hactive HchainId Hc) as (Hu & Hn & _).
  split; [by apply configuredChainIds_undefined|].
  split; [by apply (isNotConfiguredChainId_truthy env conn c)|].
  split; [intros; by apply Hn|done].
Qed.

Lemma notConfigured_without_readOnlyUrls_witness :
  configuredChainIds env_unconfigured = [] ∧
  chainIdEffect env_unconfigured = Some (ChainIdError NotConfigured (Int 1)).
Proof.
  destruct (notConfigured_without_readOnlyUrls env_unconfigured
              (connected (Int 1) (Some (wallet true))) (Int 1)
              eq_refl eq_refl eq_refl eq_refl)
    as (Hempty & _ & Hn & _).
  split; [exact Hempty|]. apply Hn. by intros (? & [=] & _).
Defined.

(** ** The resolved provider, chain id and account *)

(** A render returns exactly when the account computation does. *)
Lemma useEthers_returns getAddress env error :
  (∃ view, useEthers getAddress env error = Ok view) ↔
  (∃ account, resolve_account getAddress env = Ok account).
Proof.
  unfold useEthers. destruct (resolve env error) as [provider chainId].
  destruct (resolve_account getAddress env) as [account|e]; split.
  - intros _. by exists account.
  - intros _. by eexists.
  - by intros [? [=]].
  - by intros [? [=]].
Qed.

Lemma useEthers_resolve getAddress env error view :
  useEthers getAddress env error = Ok view →
  (Web3Ethers.library view, Web3Ethers.chainId view) = resolve env error.
Proof. render_returned. Qed.

Lemma useEthers_resolve_account getAddress env error view :
  useEthers getAddress env error = Ok view →
  resolve_account getAddress env = Ok (Web3Ethers.account view).
Proof. render_returned. Qed.

(** C4. In a render where the active connector exposes a provider, the view
    carries that provider; its chain id is undefined when the view's error
    is set, and the connector's chain id when the error is unset. *)
Theorem useEthers_chainId_masked getAddress env error conn provider view :
  activeConnector env = Some conn →
  ConnectorController.getProvider conn = Some provider →
  useEthers getAddress env error = Ok view →
  Web3Ethers.library view = Some provider ∧
  (is_Some (Web3Ethers.error view) → Web3Ethers.chainId view = None) ∧
  (Web3Ethers.error view = None →
     Web3Ethers.chainId view = ConnectorController.chainId conn).
Proof.
  intros Hactive Hprovider Hview.
  pose proof (useEthers_error _ _ _ _ Hview) as Herror.
  pose proof (useEthers_resolve _ _ _ _ Hview) as Hresolve.
  unfold resolve in Hresolve. rewrite Hactive in Hresolve. simpl in Hresolve.
  rewrite Hprovider in Hresolve. simpl in Hresolve.
  injection Hresolve as Hlibrary HchainId. rewrite Herror.
  split; [done|]. split.
  - intros [e ->]. done.
  - intros ->. done.
Qed.

Lemma useEthers_chainId_masked_witness :
  ∃ view,
    useEthers sample_getAddress (env_wallet_on (Int 137))
      (Some (ChainIdError NotConfigured (Int 137))) = Ok view ∧
    Web3Ethers.library view = Some (wallet true) ∧
    Web3Ethers.chainId view = None.
Proof.
  eexists. split; [reflexivity|].
  destruct (useEthers_chainId_masked sample_getAddress (env_wallet_on (Int 137))
              (Some (ChainIdError NotConfigured (Int 137)))
              (connected (Int 137) (Some (wallet true))) (wallet true) _
              eq_refl eq_refl eq_refl) as (Hlibrary & Hset & _).
  split; [exact Hlibrary|]. apply Hset. by eexists.
Defined.

(** C5. In a render with no active connector, or with one that exposes no
    provider, the view's provider and chain id are those of the read-only
    network, and both are undefined when there is no read-only network. *)
Theorem useEthers_readonly_fallback getAddress env error view :
  activeConnector env = None ∨
    (∃ conn, activeConnector env = Some conn ∧
             ConnectorController.getProvider conn = None) →
  useEthers getAddress env error = Ok view →
  (∀ readonly, readonlyNetwork env = Some readonly →
     Web3Ethers.library view = ReadonlyNetwork.provider readonly ∧
     Web3Ethers.chainId view = ReadonlyNetwork.chainId readonly) ∧
  (readonlyNetwork env = None →
     Web3Ethers.library view = None ∧ Web3Ethers.chainId view = None).
Proof.
  intros Hnone Hview.
  pose proof (useEthers_resolve _ _ _ _ Hview) as Hresolve.
  assert (resolve env error =
            (readonlyNetwork env ≫= ReadonlyNetwork.provider,
             readonlyNetwork env ≫= ReadonlyNetwork.chainId)) as Hfallback.
  { unfold resolve. destruct Hnone as [->|(conn & -> & Hprovider)]; simpl; [done|].
    by rewrite Hprovider. }
  rewrite Hfallback in Hresolve. injection Hresolve as -> ->.
  split.
  - by intros readonly ->.
  - by intros ->.
Qed.

Lemma useEthers_readonly_fallback_witness :
  (∃ view,
     useEthers sample_getAddress (env_disconnected (Some readonly_mainnet)) None = Ok view ∧
     Web3Ethers.library view = Some readonly_node ∧
     Web3Ethers.chainId view = Some (Int 1)) ∧
  (∃ view,
     useEthers sample_getAddress (env_disconnected None) None = Ok view ∧
     Web3Ethers.library view = None ∧
     Web3Ethers.chainId view = None).
Proof.
  split; eexists; (split; [reflexivity|]).
  - destruct (useEthers_readonly_fallback sample_getAddress
                (env_disconnected (Some readonly_mainnet)) None _
                (or_introl eq_refl) eq_refl) as [Hsome _].
    exact (Hsome readonly_mainnet eq_refl).
  - destruct (useEthers_readonly_fallback sample_getAddress
                (env_disconnected None) None _
                (or_introl eq_refl) eq_refl) as [_ Hnone].
    exact (Hnone eq_refl).
Defined.

(** C8. The view's account is the checksummed form, by [getAddress], of the
    first entry of the active connector's accounts; it is undefined when
    there is no active connector or when the accounts list is empty.
    [getAddress] gives no checksummed form to the empty string. *)
Theorem useEthers_account getAddress env error :
  (∀ address, getAddress "" ≠ Ok address) →
  (∀ conn first rest address,
     activeConnector env = Some conn →
     ConnectorController.accounts conn = first :: rest →
     getAddress first = Ok address →
     ∃ view, useEthers getAddress env error = Ok view ∧
             Web3Ethers.account view = Some address) ∧
  (activeConnector env = None ∨
     (∃ conn, activeConnector env = Some conn ∧
              ConnectorController.accounts conn = []) →
   ∃ view, useEthers getAddress env error = Ok view ∧
           Web3Ethers.account view = None).
Proof.
  intros Hempty. split.
  - intros conn first rest address Hactive Haccounts Haddress.
    assert (resolve_account getAddress env = Ok (Some address)) as Haccount.
    { unfold resolve_account. rewrite Hactive. simpl. rewrite Haccounts. simpl.
      destruct first as [|ch first]; [by destruct (Hempty address)|].
      simpl. by rewrite Haddress. }
    destruct (proj2 (useEthers_returns getAddress env error)) as [view Hview];
      [by eexists|].
    exists view. split; [done|].
    apply useEthers_resolve_account in Hview. congruence.
  - intros Hnone.
    assert (resolve_account getAddress env = Ok None) as Haccount.
    { unfold resolve_account.
      destruct Hnone as [->|(conn & -> & Haccounts)]; simpl; [done|].
      by rewrite Haccounts. }
    destruct (proj2 (useEthers_returns getAddress env error)) as [view Hview];
      [by eexists|].
    exists view. split; [done|].
    apply useEthers_resolve_account in Hview. congruence.
Qed.

Lemma sample_getAddress_empty address : sample_getAddress "" ≠ Ok address.
Proof. discriminate. Qed.

Lemma useEthers_account_witness :
  (∃ view,
     useEthers sample_getAddress (env_wallet_on (Int 1)) None = Ok view ∧
     Web3Ethers.account view = Some sample_account) ∧
  (∃ view,
     useEthers sample_getAddress (env_disconnected None) None = Ok view ∧
     Web3Ethers.account view = None).
Proof.
  split.
  - destruct (useEthers_account sample_getAddress (env_wallet_on (Int 1)) None
                sample_getAddress_empty) as [Hfirst _].
    exact (Hfirst (connected (Int 1) (Some (wallet true))) sample_account []
                  sample_account eq_refl eq_refl eq_refl).
  - destruct (useEthers_account sample_getAddress (env_disconnected None) None
                sample_getAddress_empty) as [_ Hnone].
    exact (Hnone (or_introl eq_refl)).
Defined.

(** ** switchNetwork *)

Lemma find_entry_for supported c chain :
  entry_for supported c chain →
  find (λ chain, number_strict_eq (Chain.chainId chain) (Int c)) supported = Some chain.
Proof.
  intros (before & after & -> & Hc & Hbefore).
  induction before as [|other before IH]; simpl.
  - rewrite Hc. simpl. by rewrite Z.eqb_refl.
  - destruct (number_strict_eq (Chain.chainId other) (Int c)) eqn:Heq.
    + apply number_strict_eq_true in Heq as (z & Hother & [= <-]).
      destruct (Hbefore other); [by left|done].
    + apply IH. intros other' Hin. apply Hbefore. by right.
Qed.

(** The recovery path as a whole: the wallet answers the switch request
    with code 4902 and the configured entry has an RPC URL. *)
Lemma switchNetwork_recovery provider provider_send supported c chain url e log :
  send provider = Some provider_send →
  provider_send log (switch_request c) = Some e →
  Error.code e = JNumber (Int 4902) →
  entry_for supported c chain →
  Chain.rpcUrl chain = Some url →
  url ≠ "" →
  switchNetwork (Some provider) (Some supported) (JNumber (Int c)) log =
    (match provider_send (log ++ [switch_request c]) (add_request chain) with
     | None => Ok ()
     | Some e' => Throw (Thrown e')
     end,
     log ++ [switch_request c; add_request chain]).
Proof.
  intros Hsend Hswitch Hcode Hentry Hurl Hnonempty.
  unfold switchNetwork, bind, lift, try_catch, await_send. simpl.
  rewrite Hsend. fold (switch_request c). rewrite Hswitch. simpl.
  rewrite Hcode. simpl.
  rewrite (find_entry_for _ _ _ Hentry), Hurl. simpl.
  destruct url as [|ch url]; [done|]. simpl.
  fold (add_request chain). rewrite <- app_assoc. done.
Qed.

(** C2. When the wallet answers [wallet_switchEthereumChain] with error
    code 4902 and the configured networks have an entry for the chain id
    with an RPC URL, [switchNetwork] issues exactly two calls:
    [wallet_switchEthereumChain] with [{chainId: "0x" + hex}], then
    [wallet_addEthereumChain] with the parameters built from that entry. *)
Theorem switchNetwork_adds_unknown_chain
    provider provider_send supported c chain url e log :
  send provider = Some provider_send →
  provider_send log (switch_request c) = Some e →
  Error.code e = JNumber (Int 4902) →
  entry_for supported c chain →
  Chain.rpcUrl chain = Some url →
  url ≠ "" →
  ∃ outcome,
    switchNetwork (Some provider) (Some supported) (JNumber (Int c)) log =
      (outcome,
       log ++ [ {| method := "wallet_switchEthereumChain";
                   params := [ChainIdParam ("0x" +:+ toString16 c)] |};
                {| method := "wallet_addEthereumChain";
                   params := [NetworkParam (getAddNetworkParams chain)] |} ]).
Proof.
  intros. eexists. by eapply switchNetwork_recovery.
Qed.

Lemma Polygon_entry : entry_for [Mainnet; Polygon] 137 Polygon.
Proof.
  exists [Mainnet], []. split; [done|]. split; [done|].
  intros other ->%list_elem_of_singleton. discriminate.
Defined.

Lemma switchNetwork_adds_unknown_chain_witness :
  ∃ outcome,
    switchNetwork (Some (wallet true)) (Some [Mainnet; Polygon]) (JNumber (Int 137)) [] =
      (outcome,
       [ {| method := "wallet_switchEthereumChain";
            params := [ChainIdParam "0x89"] |};
         {| method := "wallet_addEthereumChain";
            params := [NetworkParam (getAddNetworkParams Polygon)] |} ]).
Proof.
  refine (switchNetwork_adds_unknown_chain (wallet true) _ [Mainnet; Polygon] 137
            Polygon "https://polygon-rpc.com" unrecognized_chain []
            eq_refl eq_refl eq_refl Polygon_entry eq_refl _).
  discriminate.
Defined.

(** C3 as stated fails: a wallet that refuses the chain it is asked to add
    makes [switchNetwork] reject, and with the very error of the add
    request. *)
Lemma switchNetwork_surfaces_add_failure :
  ∃ provider_send,
    send (wallet false) = Some provider_send ∧
    provider_send [switch_request 137] (add_request Polygon) = Some user_rejected ∧
    fst (switchNetwork (Some (wallet false)) (Some [Mainnet; Polygon])
           (JNumber (Int 137)) []) = Throw (Thrown user_rejected).
Proof. eexists. split; [reflexivity|]. split; reflexivity. Qed.

(** C3 (as amended). When the recovery [wallet_addEthereumChain] request
    fails, [switchNetwork] rejects with the error of that request: the
    add-chain failure reaches the caller. *)
Theorem switchNetwork_add_failure_propagates
    provider provider_send supported c chain url e e' log :
  send provider = Some provider_send →
  provider_send log (switch_request c) = Some e →
  Error.code e = JNumber (Int 4902) →
  entry_for supported c chain →
  Chain.rpcUrl chain = Some url →
  url ≠ "" →
  provider_send (log ++ [switch_request c]) (add_request chain) = Some e' →
  switchNetwork (Some provider) (Some supported) (JNumber (Int c)) log =
    (Throw (Thrown e'), log ++ [switch_request c; add_request chain]).
Proof.
  intros Hsend Hswitch Hcode Hentry Hurl Hnonempty Hadd.
  rewrite (switchNetwork_recovery _ _ _ _ _ _ _ _ Hsend Hswitch Hcode Hentry Hurl Hnonempty).
  by rewrite Hadd.
Qed.

Lemma switchNetwork_add_failure_propagates_witness :
  switchNetwork (Some (wallet false)) (Some [Mainnet; Polygon]) (JNumber (Int 137)) [] =
    (Throw (Thrown user_rejected), [switch_request 137; add_request Polygon]).
Proof.
  refine (switchNetwork_add_failure_propagates (wallet false) _ [Mainnet; Polygon]
            137 Polygon "https://polygon-rpc.com" unrecognized_chain user_rejected []
            eq_refl eq_refl eq_refl Polygon_entry eq_refl _ eq_refl).
  discriminate.
Defined.

(** X3. What [switchNetwork] does discard is the failure of the switch
    request itself: when the wallet refuses the switch with any code other
    than 4902 (a user rejection, say), the call resolves after that one
    request. *)
Lemma switchNetwork_swallows_switch_failure provider provider_send networks c e log :
  send provider = Some provider_send →
  provider_send log (switch_request c) = Some e →
  Error.code e ≠ JNumber (Int 4902) →
  switchNetwork (Some provider) networks (JNumber (Int c)) log =
    (Ok (), log ++ [switch_request c]).
Proof.
  intros Hsend Hswitch Hcode.
  unfold switchNetwork, bind, lift, try_catch, await_send. simpl.
  rewrite Hsend. fold (switch_request c). rewrite Hswitch. simpl.
  destruct (Error.code e) as [| | | |[z|]|]; simpl; try done.
  destruct (Z.eqb_spec z 4902) as [->|]; [done|done].
Qed.

(** C6. An input that is not a whole number (a value of another type, NaN,
    or a number with a fractional part such as 4.5) makes [switchNetwork]
    fail with the argument-validation error, and no RPC call is issued. *)
Theorem switchNetwork_invalid_argument provider networks chainId log :
  (∀ z, chainId ≠ JNumber (Int z)) →
  switchNetwork provider networks chainId log =
    (Throw (ArgumentValidationError "chainId" chainId), log).
Proof.
  intros Hinvalid. unfold switchNetwork, bind, lift.
  destruct chainId as [| | | |[z|]|]; try done.
  by destruct (Hinvalid z).
Qed.

Lemma switchNetwork_invalid_argument_witness :
  switchNetwork (Some (wallet true)) (Some [Mainnet; Polygon])
    (JFractional (QArith_base.Qmake 9 2)) [] =
    (Throw (ArgumentValidationError "chainId" (JFractional (QArith_base.Qmake 9 2))), []) ∧
  switchNetwork (Some (wallet true)) (Some [Mainnet; Polygon]) (JString "137") [] =
    (Throw (ArgumentValidationError "chainId" (JString "137")), []).
Proof.
  split.
  - apply (switchNetwork_invalid_argument (Some (wallet true)) (Some [Mainnet; Polygon])
             (JFractional (QArith_base.Qmake 9 2)) []).
    discriminate.
  - apply (switchNetwork_invalid_argument (Some (wallet true)) (Some [Mainnet; Polygon])
             (JString "137") []).
    apply typeof_not_number. discriminate.
Defined.

(** C7. With a valid chain id and no provider that has [send] (none at
    all, or one without the capability), [switchNetwork] fails with
    "Provider not connected." and the log of RPC calls is unchanged. *)
Theorem switchNetwork_not_connected provider networks c log :
  provider = None ∨ (∃ p, provider = Some p ∧ send p = None) →
  switchNetwork provider networks (JNumber (Int c)) log =
    (Throw (Thrown (new_Error "Provider not connected.")), log).
Proof.
  intros [->|(p & -> & Hsend)]; unfold switchNetwork, bind, lift; simpl; [done|].
  by rewrite Hsend.
Qed.

Lemma switchNetwork_not_connected_witness :
  switchNetwork None (Some [Mainnet; Polygon]) (JNumber (Int 137)) [] =
    (Throw (Thrown (new_Error "Provider not connected.")), []) ∧
  switchNetwork (Some sendless) (Some [Mainnet; Polygon]) (JNumber (Int 137)) [] =
    (Throw (Thrown (new_Error "Provider not connected.")), []).
Proof.
  split.
  - apply (switchNetwork_not_connected None (Some [Mainnet; Polygon]) 137 []).
    by left.
  - apply (switchNetwork_not_connected (Some sendless) (Some [Mainnet; Polygon]) 137 []).
    right. by exists sendless.
Defined.

(** ** switchNetwork as the view hands it out *)

(** The action of a view is [switchNetwork] on the provider that view
    resolved. *)
Lemma useEthers_switchNetwork getAddress env error view :
  useEthers getAddress env error = Ok view →
  Web3Ethers.switchNetwork view = switchNetwork (Web3Ethers.library view) (networks env).
Proof. render_returned. Qed.

(** With no wallet and no read-only network, switching fails with
    "Provider not connected."; with a read-only node in place of a wallet
    the request goes to the node and its refusal is dropped. *)
Example switchNetwork_disconnected :
  ∃ view,
    useEthers sample_getAddress (env_disconnected None) None = Ok view ∧
    Web3Ethers.switchNetwork view (JNumber (Int 137)) [] =
      (Throw (Thrown (new_Error "Provider not connected.")), []).
Proof. eexists. split; reflexivity. Qed.

Example switchNetwork_readonly_node :
  ∃ view,
    useEthers sample_getAddress (env_disconnected (Some readonly_mainnet)) None = Ok view ∧
    Web3Ethers.switchNetwork view (JNumber (Int 137)) [] =
      (Ok (), [switch_request 137]).
Proof. eexists. split; reflexivity. Qed.

(** * Part IV: more of switchNetwork *)

Lemma strict_eq_number_true v n :
  number_truthy n = true → strict_eq_number v n = true ↔ v = JNumber n.
Proof.
  intros Hn. destruct v as [| | | |m|]; simpl; try (split; [discriminate|by intros [=]]).
  rewrite (number_strict_eq_truthy m n Hn). split; [by intros ->|by intros [= ->]].
Qed.

(** [networks.find] yields exactly the first entry for the chain id. *)
Lemma find_entry_for_iff supported c chain :
  find (λ chain, number_strict_eq (Chain.chainId chain) (Int c)) supported = Some chain ↔
  entry_for supported c chain.
Proof.
  split; [|apply find_entry_for].
  induction supported as [|head supported IH]; simpl; [discriminate|].
  destruct (number_strict_eq (Chain.chainId head) (Int c)) eqn:Heq.
  - intros [= <-]. exists [], supported. split; [done|].
    apply number_strict_eq_true in Heq as (z & Hhead & [= <-]).
    split; [done|]. intros other Hin. by apply elem_of_nil in Hin.
  - intros (before & after & -> & Hc & Hbefore)%IH.
    exists (head :: before), after. split; [done|]. split; [done|].
    intros other [->|Hin]%elem_of_cons; [|by apply Hbefore].
    intros Hhead. rewrite Hhead in Heq. simpl in Heq. by rewrite Z.eqb_refl in Heq.
Qed.

(** [switchNetwork] on a valid chain id and a provider that has [send],
    case by case. *)
Lemma switchNetwork_sending provider provider_send networks c log :
  send provider = Some provider_send →
  (∀ chain, recoverable provider_send networks c log chain →
     switchNetwork (Some provider) networks (JNumber (Int c)) log =
       (match provider_send (log ++ [switch_request c]) (add_request chain) with
        | None => Ok ()
        | Some e' => Throw (Thrown e')
        end,
        log ++ [switch_request c; add_request chain])) ∧
  ((∀ chain, ¬ recoverable provider_send networks c log chain) →
     switchNetwork (Some provider) networks (JNumber (Int c)) log =
       (Ok (), log ++ [switch_request c])).
Proof.
  intros Hsend. split.
  - intros chain (e & supported & url & Hswitch & Hcode & -> & Hentry & Hurl & Hne).
    by eapply switchNetwork_recovery.
  - intros Hnone.
    unfold switchNetwork, bind, lift, try_catch, await_send. simpl.
    rewrite Hsend. fold (switch_request c).
    destruct (provider_send log (switch_request c)) as [e|] eqn:Hswitch; [|done].
    simpl.
    destruct (strict_eq_number (Error.code e) errChainNotAddedYet) eqn:Hcode; [|done].
    apply strict_eq_number_true in Hcode; [|done].
    destruct networks as [supported|]; simpl; [|done].
    destruct (find _ supported) as [chain|] eqn:Hfind; [|done].
    apply find_entry_for_iff in Hfind.
    destruct (Chain.rpcUrl chain) as [[|ch url]|] eqn:Hurl; simpl; try done.
    destruct (Hnone chain). exists e, supported, (String ch url). done.
Qed.

(** At most one entry is the one [switchNetwork] would add. *)
Lemma recoverable_unique provider_send networks c log chain chain' :
  recoverable provider_send networks c log chain →
  recoverable provider_send networks c log chain' →
  chain = chain'.
Proof.
  intros (_ & supported & _ & _ & _ & -> & Hentry%find_entry_for & _)
         (_ & supported' & _ & _ & _ & [= <-] & Hentry'%find_entry_for & _).
  congruence.
Qed.

Lemma chain_id_or_not (v : jsvalue) :
  (∃ c, v = JNumber (Int c)) ∨ (∀ z, v ≠ JNumber (Int z)).
Proof. destruct v as [| | | |[z|]|]; eauto. Qed.

(** X1. Whatever its arguments, [switchNetwork] only appends to the log of
    RPC calls, and what it appends is nothing, the switch request alone, or
    the switch request followed by one add request for a configured entry
    with the requested chain id: never more than two calls, never an add
    request without the switch request before it. *)
Theorem switchNetwork_calls_shape provider networks chainId log :
  ∃ outcome calls,
    switchNetwork provider networks chainId log = (outcome, log ++ calls) ∧
    (calls = [] ∨
     ∃ c, chainId = JNumber (Int c) ∧
       (calls = [switch_request c] ∨
        ∃ supported chain,
          networks = Some supported ∧ chain ∈ supported ∧
          Chain.chainId chain = Int c ∧
          calls = [switch_request c; add_request chain])).
Proof.
  destruct (chain_id_or_not chainId) as [[c ->]|Hinvalid].
  2: { exists (Throw (ArgumentValidationError "chainId" chainId)), [].
       rewrite app_nil_r. split; [|by left].
       unfold switchNetwork, bind, lift.
       destruct chainId as [| | | |[z|]|]; try done. by destruct (Hinvalid z). }
  destruct provider as [provider|].
  2: { eexists _, []. rewrite app_nil_r. split; [reflexivity|by left]. }
  destruct (send provider) as [provider_send|] eqn:Hsend.
  2: { eexists _, []. rewrite app_nil_r. split; [|by left].
       unfold switchNetwork, bind, lift. simpl. by rewrite Hsend. }
  unfold switchNetwork, bind, lift, try_catch, await_send. simpl.
  rewrite Hsend. fold (switch_request c).
  destruct (provider_send log (switch_request c)) as [e|]; simpl.
  2: { eexists _, [_]. split; [reflexivity|]. right. exists c. split; [done|by left]. }
  destruct (strict_eq_number (Error.code e) errChainNotAddedYet).
  2: { eexists _, [_]. split; [reflexivity|]. right. exists c. split; [done|by left]. }
  destruct networks as [supported|]; simpl.
  2: { eexists _, [_]. split; [reflexivity|]. right. exists c. split; [done|by left]. }
  destruct (find _ supported) as [chain|] eqn:Hfind.
  2: { eexists _, [_]. split; [reflexivity|]. right. exists c. split; [done|by left]. }
  destruct (truthy string_truthy (Chain.rpcUrl chain)).
  2: { eexists _, [_]. split; [reflexivity|]. right. exists c. split; [done|by left]. }
  apply find_entry_for_iff in Hfind as (before & after & -> & Hc & _).
  unfold await_send. fold (add_request chain).
  eexists _, [_; _]. rewrite <- app_assoc. split; [reflexivity|].
  right. exists c. split; [done|]. right. eexists _, chain.
  split; [done|]. split; [set_solver|done].
Qed.

Lemma recoverable_or_not provider_send networks c log :
  (∃ chain, recoverable provider_send networks c log chain) ∨
  (∀ chain, ¬ recoverable provider_send networks c log chain).
Proof.
  unfold recoverable.
  destruct (provider_send log (switch_request c)) as [e|] eqn:Hswitch.
  2: { right. intros chain (? & ? & ? & [=] & _). }
  destruct (strict_eq_number (Error.code e) errChainNotAddedYet) eqn:Hcode.
  2: { right. intros chain (? & ? & ? & [= <-] & Hcode' & _).
       apply (strict_eq_number_true _ errChainNotAddedYet) in Hcode'; [|done].
       congruence. }
  apply strict_eq_number_true in Hcode; [|done].
  destruct networks as [supported|].
  2: { right. intros chain (? & ? & ? & _ & _ & [=] & _). }
  destruct (find (λ chain, number_strict_eq (Chain.chainId chain) (Int c)) supported)
    as [chain|] eqn:Hfind.
  2: { right. intros chain (? & ? & ? & _ & _ & [= <-] & Hentry%find_entry_for & _).
       congruence. }
  destruct (Chain.rpcUrl chain) as [[|ch url]|] eqn:Hurl.
  - right. intros chain' (? & ? & ? & _ & _ & [= <-] & Hentry%find_entry_for & Hurl' & Hne).
    congruence.
  - left. exists chain, e, supported, (String ch url).
    apply find_entry_for_iff in Hfind. done.
  - right. intros chain' (? & ? & ? & _ & _ & [= <-] & Hentry%find_entry_for & Hurl' & _).
    congruence.
Qed.




(** The dropped switch failure on a read-only node, which knows no wallet
    method. *)
Lemma switchNetwork_swallows_switch_failure_witness :
  switchNetwork (Some readonly_node) (Some [Mainnet; Polygon]) (JNumber (Int 137)) [] =
    (Ok (), [switch_request 137]).
Proof.
  refine (switchNetwork_swallows_switch_failure readonly_node _ (Some [Mainnet; Polygon])
            137 method_not_found [] eq_refl eq_refl _).
  discriminate.
Defined.

(** X4. When the wallet refuses the switch with code 4902 and there is
    nothing to add (no configured networks, no entry for the chain id, or
    an entry whose RPC URL is missing or empty), [switchNetwork] makes the
    one switch call and resolves: the refusal is dropped. *)
Theorem switchNetwork_unknown_chain_not_added provider provider_send networks c e log :
  send provider = Some provider_send →
  provider_send log (switch_request c) = Some e →
  Error.code e = JNumber (Int 4902) →
  (networks = None ∨
   ∃ supported, networks = Some supported ∧
     ((∀ chain, chain ∈ supported → Chain.chainId chain ≠ Int c) ∨
      (∃ chain, entry_for supported c chain ∧
                (Chain.rpcUrl chain = None ∨ Chain.rpcUrl chain = Some "")))) →
  switchNetwork (Some provider) networks (JNumber (Int c)) log =
    (Ok (), log ++ [switch_request c]).
Proof.
  intros Hsend Hswitch Hcode Hnothing.
  apply (switchNetwork_sending provider provider_send networks c log Hsend).
  intros chain (_ & supported & url & _ & _ & -> & Hentry & Hurl & Hne).
  destruct Hnothing as [[=]|(? & [= <-] & [Hnone|(chain' & Hentry' & Hurl')])].
  - destruct Hentry as (before & after & -> & Hc & _).
    apply (Hnone chain); [set_solver|done].
  - apply find_entry_for in Hentry, Hentry'.
    assert (chain = chain') as <- by congruence.
    destruct Hurl' as [Hurl'|Hurl']; congruence.
Qed.

Lemma Polygon_without_rpcUrl_entry :
  entry_for [Mainnet; Polygon_without_rpcUrl] 137 Polygon_without_rpcUrl.
Proof.
  exists [Mainnet], []. split; [done|]. split; [done|].
  intros other ->%list_elem_of_singleton. discriminate.
Defined.

Lemma switchNetwork_unknown_chain_not_added_witness :
  switchNetwork (Some (wallet true)) (Some [Mainnet; Polygon_without_rpcUrl])
    (JNumber (Int 137)) [] = (Ok (), [switch_request 137]) ∧
  switchNetwork (Some (wallet true)) (Some [Mainnet]) (JNumber (Int 137)) [] =
    (Ok (), [switch_request 137]) ∧
  switchNetwork (Some (wallet true)) None (JNumber (Int 137)) [] =
    (Ok (), [switch_request 137]).
Proof.
  split; [|split].
  - apply (switchNetwork_unknown_chain_not_added (wallet true) _
             (Some [Mainnet; Polygon_without_rpcUrl]) 137 unrecognized_chain []
             eq_refl eq_refl eq_refl).
    right. eexists. split; [done|]. right.
    exists Polygon_without_rpcUrl. split; [apply Polygon_without_rpcUrl_entry|by left].
  - apply (switchNetwork_unknown_chain_not_added (wallet true) _
             (Some [Mainnet]) 137 unrecognized_chain [] eq_refl eq_refl eq_refl).
    right. eexists. split; [done|]. left.
    intros chain ->%list_elem_of_singleton. discriminate.
  - apply (switchNetwork_unknown_chain_not_added (wallet true) _
             None 137 unrecognized_chain [] eq_refl eq_refl eq_refl).
    by left.
Defined.

(** X5. When the wallet accepts the switch request, [switchNetwork]
    resolves after that one call; the configured networks play no part. *)
Theorem switchNetwork_switch_accepted provider provider_send networks c log :
  send provider = Some provider_send →
  provider_send log (switch_request c) = None →
  switchNetwork (Some provider) networks (JNumber (Int c)) log =
    (Ok (), log ++ [switch_request c]).
Proof.
  intros Hsend Hswitch.
  apply (switchNetwork_sending provider provider_send networks c log Hsend).
  intros chain (? & ? & ? & Hswitch' & _). congruence.
Qed.

Lemma switchNetwork_switch_accepted_witness :
  switchNetwork (Some obliging_wallet) None (JNumber (Int 137)) [] =
    (Ok (), [switch_request 137]).
Proof.
  exact (switchNetwork_switch_accepted obliging_wallet _ None 137 [] eq_refl eq_refl).
Defined.

(** ** The chain id on the wire *)

Lemma string_not_longer (c : ascii) (s : string) : s ≠ String c s.
Proof. intros Heq. apply (f_equal String.length) in Heq. simpl in Heq. lia. Qed.

(** Read in base 16, the digits of [toString16 z] give back the magnitude
    of [z]. *)
Lemma toString16_magnitude (z : Z) :
  HexString.Raw.to_N (toString16 z) 0%N = Z.abs_N z.
Proof.
  destruct z as [|p|p]; [done| |].
  - simpl. by rewrite HexString.Raw.to_N_of_pos.
  - change (HexString.Raw.to_N (HexString.Raw.of_pos p "") 0%N = Npos p).
    by rewrite HexString.Raw.to_N_of_pos.
Qed.

Lemma toString16_inj : Inj (=) (=) toString16.
Proof.
  intros a b Heq.
  pose proof (f_equal (λ s, HexString.Raw.to_N s 0%N) Heq) as Hmag. simpl in Hmag.
  rewrite !toString16_magnitude in Hmag.
  destruct a as [|p|p], b as [|q|q]; simpl in *; try done.
  - by injection Hmag as ->.
  - injection Hmag as ->. by apply string_not_longer in Heq.
  - injection Hmag as ->. symmetry in Heq. by apply string_not_longer in Heq.
  - by injection Hmag as ->.
Qed.

(** X6. The chain id can be read back from the switch request: two chain
    ids with the same [wallet_switchEthereumChain] request are equal. *)
Theorem switch_request_inj (a b : Z) :
  switch_request a = switch_request b → a = b.
Proof.
  unfold switch_request. intros [= Heq]. by apply toString16_inj.
Qed.

Lemma switch_request_inj_witness : (137 : Z) = 137.
Proof. exact (switch_request_inj 137 137 eq_refl). Defined.

(** * Part V: more of the chain-validity effect *)

(** ** Property names that are chain ids *)

Lemma decimal_digit_pretty_N_char (d : N) :
  (d < 10)%N → decimal_digit (pretty_N_char d) = Some (Z.of_N d).
Proof.
  intros Hd.
  assert (d = 0 ∨ d = 1 ∨ d = 2 ∨ d = 3 ∨ d = 4 ∨ d = 5 ∨ d = 6 ∨ d = 7 ∨ d = 8 ∨ d = 9)%N
    as Hcases by lia.
  repeat (destruct Hcases as [->|Hcases]; [reflexivity|]). by subst.
Qed.

(** The decimal digits [pretty] writes for [x], read by [parse_digits],
    shift the accumulator by their number and add [x]. *)
Lemma parse_digits_pretty_N_go (x : N) :
  (0 < x)%N →
  ∃ k : Z, 0 ≤ k ∧
    ∀ s seen acc,
      parse_digits (pretty_N_go x s) seen acc =
        parse_digits s true (acc * 10 ^ k + Z.of_N x).
Proof.
  induction (N.lt_wf_0 x) as [x _ IH]. intros Hx.
  assert (parse_step : ∀ s seen acc,
    parse_digits (String (pretty_N_char (x `mod` 10)) s) seen acc =
      parse_digits s true (10 * acc + Z.of_N (x `mod` 10))).
  { intros s seen acc. simpl.
    by rewrite decimal_digit_pretty_N_char by (apply N.mod_lt; lia). }
  pose proof (N.div_mod x 10 ltac:(lia)) as Hdivmod.
  destruct (decide (x `div` 10 = 0)%N) as [Hsmall|Hbig].
  - exists 1. split; [lia|]. intros s seen acc.
    rewrite pretty_N_go_step, Hsmall, pretty_N_go_0, parse_step by done.
    rewrite Hsmall, N.mul_0_r, N.add_0_l in Hdivmod. rewrite <- Hdivmod, Z.pow_1_r.
    f_equal. lia.
  - destruct (IH (x `div` 10)%N) as (k & Hk & Hread).
    { apply N.div_lt; lia. }
    { by apply N.neq_0_lt_0. }
    exists (k + 1). split; [lia|]. intros s seen acc.
    rewrite pretty_N_go_step, Hread, parse_step by done.
    rewrite Z.pow_add_r, Z.pow_1_r by lia.
    f_equal. rewrite Hdivmod at 3. rewrite N2Z.inj_add, N2Z.inj_mul. simpl Z.of_N.
    ring.
Qed.

(** ... and they start with a digit: no white space, no sign. *)
Lemma pretty_N_go_head (x : N) (s : string) :
  (0 < x)%N →
  ∃ d rest, (d < 10)%N ∧ pretty_N_go x s = String (pretty_N_char d) rest.
Proof.
  revert s. induction (N.lt_wf_0 x) as [x _ IH]. intros s Hx.
  rewrite pretty_N_go_step by done.
  destruct (decide (x `div` 10 = 0)%N) as [Hsmall|Hbig].
  - rewrite Hsmall, pretty_N_go_0. eexists _, _. split; [|done].
    apply N.mod_lt. lia.
  - apply IH; [apply N.div_lt; lia|by apply N.neq_0_lt_0].
Qed.

Lemma parseInt10_digits (d : N) (rest : string) :
  (d < 10)%N →
  parseInt10 (String (pretty_N_char d) rest) =
    match parse_digits (String (pretty_N_char d) rest) false 0 with
    | Some v => Int (1 * v)
    | None => NaN
    end.
Proof.
  intros Hd.
  assert (d = 0 ∨ d = 1 ∨ d = 2 ∨ d = 3 ∨ d = 4 ∨ d = 5 ∨ d = 6 ∨ d = 7 ∨ d = 8 ∨ d = 9)%N
    as Hcases by lia.
  repeat (destruct Hcases as [->|Hcases]; [reflexivity|]). by subst.
Qed.

Lemma parse_digits_pretty_positive (p : positive) :
  parse_digits (pretty_N_go (Npos p) "") false 0 = Some (Zpos p).
Proof.
  destruct (parse_digits_pretty_N_go (Npos p)) as (k & _ & Hread); [lia|].
  rewrite Hread. simpl. done.
Qed.

(** [parseInt(String(z), 10)] is [z]: a property name that was a number is
    parsed back to that number. *)
Lemma parseInt10_number_toString (z : Z) :
  parseInt10 (number_toString (Int z)) = Int z.
Proof.
  destruct z as [|p|p]; [reflexivity| |].
  - change (number_toString (Int (Zpos p))) with (pretty_N_go (Npos p) "").
    destruct (pretty_N_go_head (Npos p) "") as (d & rest & Hd & Hhead); [lia|].
    pose proof (parse_digits_pretty_positive p) as Hparse.
    rewrite Hhead in *. by rewrite parseInt10_digits, Hparse by done.
  - change (number_toString (Int (Zneg p)))
      with (String "-"%char (pretty_N_go (Npos p) "")).
    unfold parseInt10. simpl. by rewrite parse_digits_pretty_positive.
Qed.



(** ** Without a chain id; the chain id the view shows *)

(** X8. With no active connector, or with one whose chain id is undefined
    or NaN, the effect synthesizes no chain-id error, whatever is
    configured: it sets the last externally reported error. *)
Theorem chainIdEffect_without_chain_id env :
  activeConnector env = None ∨
    (∃ conn, activeConnector env = Some conn ∧
       (ConnectorController.chainId conn = None ∨
        ConnectorController.chainId conn = Some NaN)) →
  isUnsupportedChainId env = false ∧
  isNotConfiguredChainId env = false ∧
  chainIdEffect env = last (errors env).
Proof.
  intros [Hnone|(conn & Hactive & [Hundefined|Hnan])].
  - unfold chainIdEffect, isUnsupportedChainId, isNotConfiguredChainId.
    rewrite Hnone. simpl. by rewrite array_get_last.
  - unfold chainIdEffect, isUnsupportedChainId, isNotConfiguredChainId.
    rewrite Hactive. simpl. rewrite Hundefined. simpl. by rewrite array_get_last.
  - destruct (chain_checks_falsy env conn NaN Hactive Hnan eq_refl) as [-> ->].
    split; [done|]. split; [done|].
    by apply (chainIdEffect_falsy env conn NaN).
Qed.

Lemma chainIdEffect_without_chain_id_witness :
  chainIdEffect (env_disconnected None) = None.
Proof.
  destruct (chainIdEffect_without_chain_id (env_disconnected None) (or_introl eq_refl))
    as (_ & _ & Heffect).
  exact Heffect.
Defined.

(** X9. Once the effect has run, the view of a connector that has a
    provider and a truthy chain id shows that chain id exactly when the
    chain id is supported (or no networks are configured), has a read-only
    URL, and no error has been reported; in every other case the chain id
    of the view is undefined. *)
Theorem useEthers_shows_chain_id getAddress env conn provider c view :
  activeConnector env = Some conn →
  ConnectorController.getProvider conn = Some provider →
  ConnectorController.chainId conn = Some c →
  number_truthy c = true →
  useEthers getAddress env (chainIdEffect env) = Ok view →
  (Web3Ethers.chainId view = Some c ↔
     ¬ absent_from_supported env c ∧ configured env c ∧ errors env = []) ∧
  (Web3Ethers.chainId view = Some c ∨ Web3Ethers.chainId view = None).
Proof.
  intros Hactive Hprovider HchainId Hc Hview.
  pose proof (isUnsupportedChainId_truthy env conn c Hactive HchainId Hc) as Hsup.
  pose proof (isNotConfiguredChainId_truthy env conn c Hactive HchainId Hc) as Hcfg.
  pose proof (useEthers_resolve _ _ _ _ Hview) as Hresolve.
  unfold resolve in Hresolve. rewrite Hactive in Hresolve. simpl in Hresolve.
  rewrite Hprovider, HchainId in Hresolve. simpl in Hresolve.
  injection Hresolve as _ Hshown. rewrite Hshown. clear Hshown.
  unfold chainIdEffect. rewrite array_get_last.
  destruct (isUnsupportedChainId env) eqn:Hu; simpl.
  { split; [|by right]. split; [done|]. intros (Habsent & _). destruct Habsent.
    by apply Hsup. }
  assert (¬ absent_from_supported env c) as Hpresent.
  { intros Habsent%Hsup. congruence. }
  destruct (isNotConfiguredChainId env) eqn:Hn; simpl.
  { split; [|by right]. split; [done|]. intros (_ & Hconfigured & _).
    exfalso. by apply (proj1 Hcfg). }
  assert (configured env c) as Hconfigured.
  { destruct (decide (c ∈ configuredChainIds env)) as [Hin|Hnin].
    - by apply elem_of_configuredChainIds.
    - rewrite <- elem_of_configuredChainIds in Hcfg.
      apply Hcfg in Hnin. congruence. }
  destruct (errors env) as [|e reported] eqn:Herrors using rev_ind; simpl.
  - split; [|by left]. done.
  - rewrite last_snoc. simpl. split; [|by right]. split; [done|].
    intros (_ & _ & Hnil). by apply app_nil in Hnil as [_ [=]].
Qed.

Lemma env_configured_137 reported :
  ¬ absent_from_supported (env_configured (Int 137) reported) (Int 137) ∧
  configured (env_configured (Int 137) reported) (Int 137).
Proof.
  split.
  - intros (supported & [= <-] & Hall). apply (Hall Polygon); [set_solver|done].
  - eexists _, (number_toString (Int 137)). split; [done|].
    split; [|apply parseInt10_number_toString].
    exists "https://polygon.example". by vm_compute.
Qed.

Lemma useEthers_shows_chain_id_witness :
  (∃ view,
     useEthers sample_getAddress (env_configured (Int 137) [])
       (chainIdEffect (env_configured (Int 137) [])) = Ok view ∧
     Web3Ethers.chainId view = Some (Int 137)) ∧
  (∃ view,
     useEthers sample_getAddress (env_configured (Int 137) [network_down])
       (chainIdEffect (env_configured (Int 137) [network_down])) = Ok view ∧
     Web3Ethers.chainId view ≠ Some (Int 137)).
Proof.
  split.
  - eexists. split; [by vm_compute|].
    apply (useEthers_shows_chain_id sample_getAddress (env_configured (Int 137) [])
             (connected (Int 137) (Some (wallet true))) (wallet true) (Int 137) _
             eq_refl eq_refl eq_refl eq_refl eq_refl).
    destruct (env_configured_137 []) as [Hpresent Hconfigured]. done.
  - eexists. split; [by vm_compute|].
    intros Hshown.
    apply (useEthers_shows_chain_id sample_getAddress
             (env_configured (Int 137) [network_down])
             (connected (Int 137) (Some (wallet true))) (wallet true) (Int 137) _
             eq_refl eq_refl eq_refl eq_refl eq_refl) in Hshown as (_ & _ & [=]).
Defined.

(** * Part VI: more of the render *)

(** X10. An account in the view is always the checksummed first entry of
    the active connector's accounts, that entry being a non-empty string;
    a view with an account is active. *)
Theorem useEthers_account_sound getAddress env error view address :
  useEthers getAddress env error = Ok view →
  Web3Ethers.account view = Some address →
  Web3Ethers.active view = true ∧
  ∃ conn first rest,
    activeConnector env = Some conn ∧
    ConnectorController.accounts conn = first :: rest ∧
    first ≠ "" ∧
    getAddress first = Ok address.
Proof.
  intros Hview Haccount.
  pose proof (useEthers_resolve_account _ _ _ _ Hview) as Hresolve.
  rewrite Haccount in Hresolve. unfold resolve_account in Hresolve.
  assert (Web3Ethers.active view = bool_decide (is_Some (activeConnector env)))
    as -> by (revert Hview; render_returned).
  destruct (activeConnector env) as [conn|]; simpl in Hresolve; [|done].
  split; [done|].
  destruct (ConnectorController.accounts conn) as [|first rest] eqn:Haccounts;
    simpl in Hresolve; [done|].
  destruct first as [|ch first]; simpl in Hresolve; [done|].
  destruct (getAddress (String ch first)) as [checksummed|e] eqn:Haddress; [|done].
  injection Hresolve as ->. by exists conn, (String ch first), rest.
Qed.

Lemma useEthers_account_sound_witness :
  ∃ conn first rest,
    activeConnector (env_wallet_on (Int 1)) = Some conn ∧
    ConnectorController.accounts conn = first :: rest ∧
    first ≠ "" ∧
    sample_getAddress first = Ok sample_account.
Proof.
  exact (proj2 (useEthers_account_sound sample_getAddress (env_wallet_on (Int 1)) None
                  _ sample_account eq_refl eq_refl)).
Defined.

(** X11. A render throws in one case only: the first account of the active
    connector is a non-empty string that [getAddress] rejects; the render
    then throws what [getAddress] threw, whatever else is configured. *)
Theorem useEthers_throws_iff getAddress env error e :
  useEthers getAddress env error = Throw e ↔
  ∃ conn first rest,
    activeConnector env = Some conn ∧
    ConnectorController.accounts conn = first :: rest ∧
    first ≠ "" ∧
    getAddress first = Throw e.
Proof.
  unfold useEthers. destruct (resolve env error) as [provider chainId].
  unfold resolve_account.
  destruct (activeConnector env) as [conn|]; simpl.
  2: { split; [done|]. by intros (? & ? & ? & [=] & _). }
  destruct (ConnectorController.accounts conn) as [|first rest] eqn:Haccounts; simpl.
  { split; [done|]. by intros (? & ? & ? & [= <-] & ? & _); congruence. }
  destruct first as [|ch first]; simpl.
  { split; [done|]. intros (? & ? & ? & [= <-] & Hacc & Hne & _).
    rewrite Haccounts in Hacc. by injection Hacc as <- _. }
  destruct (getAddress (String ch first)) as [checksummed|e'] eqn:Haddress.
  - split; [done|]. intros (? & ? & ? & [= <-] & Hacc & _ & Hthrow).
    rewrite Haccounts in Hacc. injection Hacc as <- _. congruence.
  - split.
    + intros [= <-]. by exists conn, (String ch first), rest.
    + intros (? & ? & ? & [= <-] & Hacc & _ & Hthrow).
      rewrite Haccounts in Hacc. injection Hacc as <- _. congruence.
Qed.

Lemma useEthers_throws_iff_witness :
  useEthers sample_getAddress env_bad_account None =
    Throw (Thrown (new_Error "invalid address")).
Proof.
  apply (useEthers_throws_iff sample_getAddress env_bad_account None).
  eexists _, "not an address", []. split; [reflexivity|]. split; [reflexivity|].
  split; [discriminate|reflexivity].
Defined.

(** * Part VII: activate *)

Lemma activations_app (log log' : list event) :
  activations (log ++ log') = activations log ++ activations log'.
Proof. apply omap_app. Qed.

(** X12. Handed a web3-react connector whose [getProvider] yields, the
    view's [activate] passes what was yielded to the [activate] of the
    network state, once, and resolves or rejects as that call does,
    whether the connector's own [activate] succeeded or failed. *)
Theorem activate_connector_failure_ignored
    useNetwork_activate connector provider log :
  Web3ReactConnector.getProvider connector = Ok provider →
  fst (activate useNetwork_activate (AConnector connector) log) =
    useNetwork_activate (Yielded provider) ∧
  activations (snd (activate useNetwork_activate (AConnector connector) log)) =
    activations log ++ [Yielded provider].
Proof.
  intros Hyield. unfold activate. rewrite Hyield. simpl. split; [done|].
  destruct (Web3ReactConnector.activate connector);
    by rewrite <- !app_assoc, activations_app.
Qed.

Lemma activate_connector_failure_ignored_witness :
  fst (activate sample_activate (AConnector failing_connector) []) = Ok () ∧
  activations (snd (activate sample_activate (AConnector failing_connector) [])) =
    [Yielded (Some (wallet true))].
Proof.
  exact (activate_connector_failure_ignored sample_activate failing_connector
           (Some (wallet true)) [] eq_refl).
Defined.

(** X13. Whatever it is handed, the view's [activate] only appends to the
    log and calls the [activate] of the network state at most once, as the
    last thing it does, returning that call's outcome. It returns without
    that call in one case only: a web3-react connector whose [getProvider]
    threw, and it then rejects with what was thrown. So it never resolves
    without an activation that resolved. *)
Theorem activate_activates_once useNetwork_activate input log :
  ∃ events,
    snd (activate useNetwork_activate input log) = log ++ events ∧
    ((∃ target,
        activations events = [target] ∧
        last events = Some (NetworkActivate target) ∧
        fst (activate useNetwork_activate input log) = useNetwork_activate target) ∨
     (∃ connector e,
        input = AConnector connector ∧
        Web3ReactConnector.getProvider connector = Throw e ∧
        activations events = [] ∧
        fst (activate useNetwork_activate input log) = Throw e)).
Proof.
  destruct input as [provider|connector|tag]; simpl.
  - eexists [_]. split; [done|]. left. by eexists.
  - destruct (Web3ReactConnector.activate connector) as [[]|failure],
             (Web3ReactConnector.getProvider connector) as [provider|e] eqn:Hyield;
      simpl; rewrite <- !app_assoc; simpl; eexists; (split; [reflexivity|]).
    + left. by eexists.
    + right. by exists connector, e.
    + left. by eexists.
    + right. by exists connector, e.
  - eexists [_]. split; [done|]. left. by eexists.
Qed.

Example activate_broken_connector :
  activate sample_activate (AConnector broken_connector) [] =
    (Throw (Thrown network_down),
     [ConsoleWarn
        "Using web3-react connectors is deprecated and may lead to unexpected behavior.";
      ConnectorActivate; ConnectorGetProvider]).
Proof. reflexivity. Qed.

Example activate_tag :
  activate sample_activate (ATag "metamask") [] =
    (Ok (), [NetworkActivate (Forwarded (ATag "metamask"))]).
Proof. reflexivity. Qed.

(** * Part VIII: switchNetwork through the view *)

(** X14. The [switchNetwork] of a view whose connector has a provider
    addresses that provider whatever the [error] state is: a chain-id
    error hides the chain id from the view but leaves switching to another
    network possible. *)
Theorem useEthers_switchNetwork_despite_error
    getAddress env error conn provider view :
  activeConnector env = Some conn →
  ConnectorController.getProvider conn = Some provider →
  useEthers getAddress env error = Ok view →
  Web3Ethers.switchNetwork view = switchNetwork (Some provider) (networks env).
Proof.
  intros Hactive Hprovider Hview.
  rewrite (useEthers_switchNetwork _ _ _ _ Hview).
  pose proof (useEthers_resolve _ _ _ _ Hview) as Hresolve.
  unfold resolve in Hresolve. rewrite Hactive in Hresolve. simpl in Hresolve.
  rewrite Hprovider in Hresolve. simpl in Hresolve.
  by injection Hresolve as -> _.
Qed.

Lemma useEthers_switchNetwork_despite_error_witness :
  ∃ view,
    useEthers sample_getAddress (env_wallet_on (Int 5))
      (chainIdEffect (env_wallet_on (Int 5))) = Ok view ∧
    Web3Ethers.error view = Some (ChainIdError Unsupported (Int 5)) ∧
    Web3Ethers.chainId view = None ∧
    Web3Ethers.switchNetwork view (JNumber (Int 137)) [] =
      (Ok (), [switch_request 137; add_request Polygon]).
Proof.
  eexists. split; [reflexivity|]. split; [by vm_compute|]. split; [by vm_compute|].
  refine (eq_trans
            (f_equal (λ action, action (JNumber (Int 137)) [])
               (useEthers_switchNetwork_despite_error sample_getAddress
                  (env_wallet_on (Int 5)) (chainIdEffect (env_wallet_on (Int 5)))
                  (connected (Int 5) (Some (wallet true))) (wallet true) _
                  eq_refl eq_refl eq_refl)) _).
  reflexivity.
Defined.

(** X15. With no active connector (or one without a provider), the
    [switchNetwork] of the view addresses the provider of the read-only
    network: when that provider has [send], a valid call is not refused
    before anything is sent; [wallet_switchEthereumChain] goes to the
    read-only provider. *)
Theorem useEthers_switchNetwork_readonly
    getAddress env error readonly provider provider_send view c log :
  activeConnector env = None ∨
    (∃ conn, activeConnector env = Some conn ∧
             ConnectorController.getProvider conn = None) →
  readonlyNetwork env = Some readonly →
  ReadonlyNetwork.provider readonly = Some provider →
  send provider = Some provider_send →
  useEthers getAddress env error = Ok view →
  Web3Ethers.switchNetwork view = switchNetwork (Some provider) (networks env) ∧
  ∃ outcome calls,
    Web3Ethers.switchNetwork view (JNumber (Int c)) log =
      (outcome, log ++ switch_request c :: calls).
Proof.
  intros Hnone Hreadonly Hprovider Hsend Hview.
  assert (Web3Ethers.switchNetwork view = switchNetwork (Some provider) (networks env))
    as Haction.
  { rewrite (useEthers_switchNetwork _ _ _ _ Hview).
    pose proof (useEthers_resolve _ _ _ _ Hview) as Hresolve.
    unfold resolve in Hresolve.
    destruct Hnone as [Hnone|(conn & Hactive & Hnoprovider)].
    - rewrite Hnone, Hreadonly in Hresolve. simpl in Hresolve.
      rewrite Hprovider in Hresolve. by injection Hresolve as -> _.
    - rewrite Hactive in Hresolve. simpl in Hresolve.
      rewrite Hnoprovider, Hreadonly in Hresolve. simpl in Hresolve.
      rewrite Hprovider in Hresolve. by injection Hresolve as -> _. }
  split; [done|]. rewrite Haction.
  destruct (switchNetwork_sending provider provider_send (networks env) c log Hsend)
    as [Hrec Hnot].
  destruct (recoverable_or_not provider_send (networks env) c log)
    as [[chain Hchain]|Hnothing].
  - rewrite (Hrec chain Hchain). by eexists _, [_].
  - rewrite (Hnot Hnothing). by eexists _, [].
Qed.

Lemma useEthers_switchNetwork_readonly_witness :
  ∃ view,
    useEthers sample_getAddress (env_disconnected (Some readonly_mainnet)) None = Ok view ∧
    ∃ outcome calls,
      Web3Ethers.switchNetwork view (JNumber (Int 137)) [] =
        (outcome, [] ++ switch_request 137 :: calls).
Proof.
  eexists. split; [reflexivity|].
  exact (proj2 (useEthers_switchNetwork_readonly sample_getAddress
                  (env_disconnected (Some readonly_mainnet)) None readonly_mainnet
                  readonly_node _ _ 137 [] (or_introl eq_refl) eq_refl eq_refl eq_refl
                  eq_refl)).
Defined.
